(** * Minecraft adapter of nekro-agent: message normalizer and plugin tools

    A shallow embedding of
    - [nekro_agent/adapters/minecraft/matchers/message.py] (inbound chat
      events to the platform-neutral message), and
    - [plugins/builtin/minecraft_utils.py] (rich-text sending and batched
      RCON command execution),
    followed by the properties of the embedding.

    Conventions.  A Python [str] is represented by its UTF-8 encoding in a
    Rocq [string]; [+:+] is string concatenation.  Calls that leave the
    plugin (the bot registry, the RCON round trip, the database, the JSON
    parser, the pydantic constructor) are the fields of the class
    [Services]; everything they may read or change is the abstract state
    [Ext].  The model threads a [World]: the outside state together with
    the list of effects the code has performed so far. *)

From Stdlib Require Import ZArith NArith Ascii String DecimalString.
From Stdlib Require DecimalZ.
From stdpp Require Import gmap strings list.

Set Warnings "-register-all".

Local Open Scope string_scope.
Local Open Scope list_scope.

(* ===================================================================== *)
(** * Part I: the model                                                   *)
(* ===================================================================== *)

(** ** Python strings *)

Module PyStr.

Definition code (c : ascii) : N := N_of_ascii c.

(** Whitespace as [str.isspace] has it, by the UTF-8 encoding of the code
    point: U+0009..U+000D, U+001C..U+0020 (one byte); U+0085, U+00A0 (two
    bytes); U+1680, U+2000..U+200A, U+2028, U+2029, U+202F, U+205F,
    U+3000 (three bytes). *)
Definition isspace1 (a : N) : bool :=
  ((9 <=? a) && (a <=? 13) || (28 <=? a) && (a <=? 32))%N.

Definition isspace2 (a b : N) : bool :=
  ((a =? 194) && ((b =? 133) || (b =? 160)))%N.

Definition isspace3 (a b c : N) : bool :=
  ((a =? 225) && (b =? 154) && (c =? 128)
   || (a =? 226) && (b =? 128)
      && ((128 <=? c) && (c <=? 138) || (c =? 168) || (c =? 169) || (c =? 175))
   || (a =? 226) && (b =? 129) && (c =? 159)
   || (a =? 227) && (b =? 128) && (c =? 128))%N.

(** [str.lstrip()]: drop whitespace code points from the front. *)
Fixpoint lstrip (s : string) : string :=
  match s with
  | String a r1 =>
      if isspace1 (code a) then lstrip r1 else
      match r1 with
      | String b r2 =>
          if isspace2 (code a) (code b) then lstrip r2 else
          match r2 with
          | String c r3 =>
              if isspace3 (code a) (code b) (code c) then lstrip r3 else s
          | EmptyString => s
          end
      | EmptyString => s
      end
  | EmptyString => EmptyString
  end.

(** Python truthiness of a [str]: non-empty. *)
Definition truthy (s : string) : bool :=
  match s with EmptyString => false | String _ _ => true end.

(** [str.rstrip()]: cut the string where the rest is whitespace only. *)
Fixpoint rstrip (s : string) : string :=
  match s with
  | EmptyString => EmptyString
  | String a r => if truthy (lstrip s) then String a (rstrip r) else EmptyString
  end.

(** [str.strip()]. *)
Definition strip (s : string) : string := rstrip (lstrip s).

(** [s.startswith(p)]. *)
Definition startswith (s p : string) : bool := String.prefix p s.

(** The line feed that the source's string literals spell with a backslash. *)
Definition nl : string := String "010" "".

(** [sep.join(parts)]. *)
Definition join (sep : string) (parts : list string) : string :=
  String.concat sep parts.

(** [str(n)] and the [{n}] of an f-string, for an [int]. *)
Definition of_int (n : Z) : string := NilEmpty.string_of_int (Z.to_int n).

(** [s[:n]]. *)
Definition take (n : nat) (s : string) : string := String.substring 0 n s.

(** [str.lower()] as far as a comparison with ASCII text can tell: the
    letters A..Z, and KELVIN SIGN (U+212A, bytes E2 84 AA), the one code
    point outside ASCII whose lower case is an ASCII letter.  The lower
    case of every other code point outside ASCII still has a code point
    outside ASCII, so it is left as it is here: it equals no ASCII text
    before or after. *)
Definition lower1 (a : ascii) : ascii :=
  if ((65 <=? code a) && (code a <=? 90))%N then ascii_of_N (code a + 32) else a.

Fixpoint lower (s : string) : string :=
  match s with
  | String a r1 =>
      match r1 with
      | String b (String c r3) =>
          if ((code a =? 226) && (code b =? 132) && (code c =? 170))%N
          then String "k" (lower r3)
          else String (lower1 a) (lower r1)
      | _ => String (lower1 a) (lower r1)
      end
  | EmptyString => EmptyString
  end.

End PyStr.

(** ** SHA-1 ([hashlib.sha1]), on 32-bit words kept in [N] *)

Module Sha1.

Local Open Scope N_scope.

Definition w32 (x : N) : N := N.land x 4294967295.
Definition add32 (x y : N) : N := w32 (x + y).
Definition rotl (n x : N) : N :=
  w32 (N.lor (N.shiftl x n) (N.shiftr x (32 - n))).
Definition not32 (x : N) : N := N.lxor x 4294967295.

Definition bytes_of (s : string) : list N := map PyStr.code (list_ascii_of_string s).

(** Big-endian bytes of [x], [n] of them. *)
Fixpoint be_bytes (n : nat) (x : N) : list N :=
  match n with
  | O => []
  | S n' => N.land (N.shiftr x (8 * N.of_nat n')) 255 :: be_bytes n' x
  end.

(** Message, the byte 0x80, zeros up to 56 modulo 64, the bit length on
    eight bytes. *)
Definition pad (msg : list N) : list N :=
  let len := N.of_nat (length msg) in
  let zeros := N.to_nat ((119 - len mod 64) mod 64) in
  msg ++ 128 :: repeat 0 zeros ++ be_bytes 8 (8 * len).

Fixpoint words (fuel : nat) (bs : list N) : list N :=
  match fuel, bs with
  | S f, b0 :: b1 :: b2 :: b3 :: r =>
      (N.shiftl b0 24 + N.shiftl b1 16 + N.shiftl b2 8 + b3) :: words f r
  | _, _ => []
  end.

(** The message schedule, newest word first; [n] words are added. *)
Fixpoint schedule (n : nat) (rev_w : list N) : list N :=
  match n with
  | O => rev_w
  | S n' =>
      let x := N.lxor (N.lxor (nth 2 rev_w 0) (nth 7 rev_w 0))
                      (N.lxor (nth 13 rev_w 0) (nth 15 rev_w 0)) in
      schedule n' (rotl 1 x :: rev_w)
  end.

Definition f_k (t : nat) (b c d : N) : N * N :=
  if (t <? 20)%nat then (N.lor (N.land b c) (N.land (not32 b) d), 1518500249)
  else if (t <? 40)%nat then (N.lxor (N.lxor b c) d, 1859775393)
  else if (t <? 60)%nat
       then (N.lor (N.lor (N.land b c) (N.land b d)) (N.land c d), 2400959708)
  else (N.lxor (N.lxor b c) d, 3395469782).

Record state := State { ha : N; hb : N; hc : N; hd : N; he : N }.

Fixpoint rounds (t : nat) (ws : list N) (s : state) : state :=
  match ws with
  | [] => s
  | w :: ws' =>
      let '(f, k) := f_k t (hb s) (hc s) (hd s) in
      let temp := add32 (add32 (add32 (add32 (rotl 5 (ha s)) f) (he s)) k) w in
      rounds (S t) ws' (State temp (ha s) (rotl 30 (hb s)) (hc s) (hd s))
  end.

Definition block (h : state) (blk : list N) : state :=
  let ws := rev (schedule 64 (rev (words 16 blk))) in
  let s := rounds 0 ws h in
  State (add32 (ha h) (ha s)) (add32 (hb h) (hb s)) (add32 (hc h) (hc s))
        (add32 (hd h) (hd s)) (add32 (he h) (he s)).

Fixpoint blocks (fuel : nat) (h : state) (bs : list N) : state :=
  match fuel with
  | O => h
  | S f =>
      match bs with
      | [] => h
      | _ => blocks f (block h (firstn 64 bs)) (skipn 64 bs)
      end
  end.

Definition init : state :=
  State 1732584193 4023233417 2562383102 271733878 3285377520.

Definition digest (s : string) : state :=
  let bs := pad (bytes_of s) in
  blocks (length bs) init bs.

Definition hex_digit (d : N) : ascii :=
  ascii_of_N (if d <? 10 then 48 + d else 87 + d).

(** [n] lower-case hexadecimal digits of [x], most significant first. *)
Fixpoint hex (n : nat) (x : N) : string :=
  match n with
  | O => EmptyString
  | S n' => String (hex_digit (N.land (N.shiftr x (4 * N.of_nat n')) 15)) (hex n' x)
  end.

(** [hashlib.sha1(data).hexdigest()]. *)
Definition hexdigest (s : string) : string :=
  let h := digest s in
  hex 8 (ha h) +:+ hex 8 (hb h) +:+ hex 8 (hc h) +:+ hex 8 (hd h) +:+ hex 8 (he h).

End Sha1.

(** ** adapters/minecraft/matchers/message.py *)

(** What the handler reads from the [MessageEvent] of the Minecraft
    adapter of nonebot: the server name, the player, the plain text of the
    message, the id (a [str], here also [None] for an event without one)
    and the timestamp (an [int], so that [int(event.timestamp)] is the
    timestamp). *)
Module MessageEvent.
Record t := mk {
  server_name : string;
  player_nickname : option string;  (* event.player.nickname *)
  player_uuid : string;             (* str(event.player.uuid) *)
  plain_text : string;  (* event.get_message().extract_plain_text() *)
  message_id : option string;       (* None: no id came with the event *)
  timestamp : Z;
}.
End MessageEvent.

(** Modelled from the spec: the declaration of [ChatType]
    ([nekro_agent.schemas.chat_message]) is not among the sources; the
    handler uses the group kind, the only one the spec's ChannelRef has. *)
Inductive ChatType := GROUP.

(** Modelled from the spec: the declaration of [PlatformChannel]
    ([nekro_agent.adapters.interface]) is not among the sources; the fields
    are those the handler passes, the spec's ChannelRef. *)
Module PlatformChannel.
Record t := mk {
  channel_id : string;
  channel_name : string;
  channel_type : ChatType;
}.
End PlatformChannel.

(** Modelled from the spec: the declaration of [PlatformUser]
    ([nekro_agent.adapters.interface]) is not among the sources; the fields
    are those the handler passes, the spec's UserRef. *)
Module PlatformUser.
Record t := mk {
  platform_name : string;
  user_id : string;
  user_name : option string;
  user_avatar : string;
}.
End PlatformUser.

(** Modelled from the spec: the declarations of [ChatMessageSegmentType]
    and [ChatMessageSegment] ([nekro_agent.schemas.chat_message]) are not
    among the sources; the handler builds text segments, the one variant
    of the spec's MessageSegment. *)
Inductive ChatMessageSegmentType := TEXT.

Module ChatMessageSegment.
Record t := mk { type : ChatMessageSegmentType; text : string }.
End ChatMessageSegment.

(** Modelled from the spec: the declaration of [PlatformMessage]
    ([nekro_agent.adapters.interface]) is not among the sources; the fields
    are those the handler passes, the spec's CanonicalMessage. *)
Module PlatformMessage.
Record t := mk {
  message_id : string;
  sender_id : string;
  sender_name : option string;
  sender_nickname : option string;
  content_data : list ChatMessageSegment.t;
  content_text : string;
  is_tome : bool;
  timestamp : Z;
}.
End PlatformMessage.

(** [hashlib.sha1(original_player_uuid.encode("utf-8")).hexdigest()[:10]];
    the string already is its UTF-8 encoding. *)
Definition short_player_id (original_player_uuid : string) : string :=
  PyStr.take 10 (Sha1.hexdigest original_player_uuid).

(** The id of the message: the one of the event when
    [msg_id_from_event and msg_id_from_event.strip()] is true, a synthesized
    one otherwise. *)
Definition msg_id_of (event : MessageEvent.t) : string :=
  let synthesized :=
    "mc_" +:+ MessageEvent.server_name event +:+ "_"
    +:+ short_player_id (MessageEvent.player_uuid event) +:+ "_"
    +:+ PyStr.of_int (MessageEvent.timestamp event) in
  match MessageEvent.message_id event with
  | Some msg_id_from_event =>
      if PyStr.truthy msg_id_from_event
         && PyStr.truthy (PyStr.strip msg_id_from_event)
      then msg_id_from_event
      else synthesized
  | None => synthesized
  end.

(** The handler registered by [register_matcher]: the channel, the user and
    the message it hands to [collect_message]. *)
Definition handle_message (event : MessageEvent.t)
  : PlatformChannel.t * PlatformUser.t * PlatformMessage.t :=
  let plt_channel :=
    PlatformChannel.mk (MessageEvent.server_name event)
                       (MessageEvent.server_name event) GROUP in
  let sender_name := MessageEvent.player_nickname event in
  let original_player_uuid := MessageEvent.player_uuid event in
  let short_player_id := short_player_id original_player_uuid in
  let plt_user := PlatformUser.mk "Minecraft" short_player_id sender_name "" in
  let plain_text_content := MessageEvent.plain_text event in
  let msg_list := [ChatMessageSegment.mk TEXT plain_text_content] in
  let msg_id := msg_id_of event in
  let plt_msg :=
    PlatformMessage.mk msg_id short_player_id sender_name sender_name msg_list
                       plain_text_content false (MessageEvent.timestamp event) in
  (plt_channel, plt_user, plt_msg).

(** ** plugins/builtin/minecraft_utils.py: data *)

Definition RCON_ERROR_PREFIXES : list string :=
  [ "Unknown or incomplete command";
    "Incorrect argument";
    "Invalid player";
    "Player not found";
    "That player is not online";
    "You do not have permission to use this command";
    "Cannot give";
    "Invalid UUID";
    "No such entity";
    "That block is not a container";
    "Could not insert items";
    "Data tag parsing failed";
    "Expected";
    "Invalid command syntax";
    "An unexpected error occurred";
    "No targets matched selector";
    "The entity UUID is invalid";
    "Invalid command format" ].

(** A value that [json.loads] returns. *)
Inductive json :=
| JNull
| JBool (b : bool)
| JNum (literal : string)
| JStr (s : string)
| JArr (items : list json)
| JObj (d : gmap string json).

(** [isinstance(v, dict)]. *)
Definition is_dict (v : json) : bool :=
  match v with JObj _ => true | _ => false end.

(** The palette of [nonebot.adapters.minecraft.models.Color], as the
    docstring of [send_rich_text] lists it. *)
Inductive Color :=
| black | dark_blue | dark_green | dark_aqua | dark_red | dark_purple
| gold | gray | dark_gray | blue | green | aqua | red | light_purple
| yellow | white.

Definition palette : list (string * Color) :=
  [ ("black", black); ("dark_blue", dark_blue); ("dark_green", dark_green);
    ("dark_aqua", dark_aqua); ("dark_red", dark_red);
    ("dark_purple", dark_purple); ("gold", gold); ("gray", gray);
    ("dark_gray", dark_gray); ("blue", blue); ("green", green);
    ("aqua", aqua); ("red", red); ("light_purple", light_purple);
    ("yellow", yellow); ("white", white) ].

(** [Color(name)]: [None] stands for the [ValueError] of the enumeration. *)
Definition Color_of_name (name : string) : option Color :=
  snd <$> find (fun p => String.eqb name (fst p)) palette.

(** [Color(str(v).lower())].  For a [v] that is not a string, [str(v)] is
    "None", "True", "False", a number or a bracketed rendering, none of which
    is a palette name in lower case. *)
Definition Color_of_json (v : json) : option Color :=
  match v with
  | JStr s => Color_of_name (PyStr.lower s)
  | _ => None
  end.

(** The fields of [Component] ([nonebot.adapters.minecraft.models]) that
    the plugin sets.  [None]: the attribute was not given to the constructor
    and keeps the default of the library, which for [text] is not a string
    that [if c.text] lets through. *)
Module Component.
Record t := mk {
  text : option string;
  color : option Color;
  bold : option bool;
  italic : option bool;
  underlined : option bool;
  strikethrough : option bool;
  obfuscated : option bool;
}.
End Component.

(** [MessageSegment.text(text=..., extra=...)]. *)
Module MessageSegment.
Record t := text { text_of : string; extra : list Component.t }.
End MessageSegment.

(** Exceptions (instances of [Exception]), by the classes the handlers
    tell apart. *)
Inductive exn :=
| ValueError (msg : string)
| ValidationError (msg : string)  (* pydantic; a subclass of ValueError *)
| ConnectionError (msg : string)
| Exception (msg : string)
| OtherError (msg : string).      (* any class not under ValueError *)

(** [isinstance(e, ValueError)]. *)
Definition is_ValueError (e : exn) : bool :=
  match e with
  | ValueError _ | ValidationError _ => true
  | _ => false
  end.

(** [str(e)]. *)
Definition exn_str (e : exn) : string :=
  match e with
  | ValueError m | ValidationError m | ConnectionError m | Exception m
  | OtherError m => m
  end.

(** What goes to the logger, by call site. *)
Inductive log_entry :=
| warn_invalid_color (v : json)
| warn_not_a_dict (seg_dict : json)
| error_json_parse (e : string)
| error_rich_text (e : exn)
| error_rich_text_send (chat_key : string) (e : exn)
| info_rich_text_sent (chat_key : string)
| error_rcon (chat_key command response_msg : string)
| error_rcon_unexpected (chat_key command e : string)
| info_rcon (command chat_key result_str : string).

(** What the plugin does to the outside, in the order it does it. *)
Inductive effect :=
| Log (entry : log_entry)
| RconRoundTrip (command : string)
| PushBotMessage (chat_key agent_messages : string)
| SendMsg (message : MessageSegment.t).

(** ** The collaborators *)

(** How [json.loads] fails: the text of a [JSONDecodeError], which
    [_parse_and_validate_components] catches, or any other exception, which
    it does not. *)
Inductive loads_failure :=
| JSONDecodeError (msg : string)
| LoadsRaises (e : exn).

(** The plugin's calls to the outside: [get_bot], [DBChatChannel] and
    [message_service] of nekro-agent, whose code is not among the sources,
    the [Bot] of the adapter, [json.loads] and the constructor of
    [Component].  [Ext] is the state of everything outside the plugin (the
    bot registry, the connections, the database); a call returns its result,
    or the exception it raises, and the state it leaves.  The response of an
    RCON round trip is [Some s] for a [str] and [None] for any other object;
    [get_preset_name] is [channel.get_preset()] followed by [.name];
    [json_loads] returns the value, or how [json.loads] fails: with a
    [JSONDecodeError], or with another exception (the [ValueError] of an
    integer with too many digits, the [RecursionError] of a document nested
    too deep).

    The constructor of [Component] validates its arguments: a [str] is
    taken as [text] and a [bool] as a style flag; what it does with a value
    of another type (convert it, or raise [ValidationError] with a message)
    is left to [validate_text] and [validate_flag]. *)
Class Services := {
  Ext : Type;
  Bot : Type;
  DBChatChannel : Type;
  get_bot : string -> Ext -> option Bot;
  send_rcon_command : Bot -> string -> Ext -> (exn + option string) * Ext;
  send_msg : Bot -> MessageSegment.t -> Ext -> (exn + unit) * Ext;
  get_channel : string -> Ext -> (exn + DBChatChannel) * Ext;
  get_preset_name : DBChatChannel -> Ext -> (exn + string) * Ext;
  push_bot_message :
    string -> string -> DBChatChannel -> Ext -> (exn + unit) * Ext;
  json_loads : string -> loads_failure + json;
  validate_text : json -> string + string;
  validate_flag : json -> string + bool;
  validate_text_str : forall s, validate_text (JStr s) = inr s;
  validate_flag_bool : forall b, validate_flag (JBool b) = inr b;
}.

(** ** Effects: state, trace and exceptions *)

Record World `{Services} := mkWorld { ext : Ext; trace : list effect }.
Arguments mkWorld {_} ext trace.

Inductive outcome (A : Type) :=
| Returned (a : A)
| Raised (e : exn).
Arguments Returned {A} a.
Arguments Raised {A} e.

Definition M `{Services} (A : Type) : Type := World -> outcome A * World.

#[global] Instance M_ret `{Services} : MRet M :=
  fun A a w => (Returned a, w).

#[global] Instance M_bind `{Services} : MBind M :=
  fun A B f m w =>
    match m w with
    | (Returned a, w') => f a w'
    | (Raised e, w') => (Raised e, w')
    end.

(** [raise e]. *)
Definition raise `{Services} {A} (e : exn) : M A :=
  fun w => (Raised e, w).

(** [try: body except Exception as e: handler(e)]. *)
Definition try_except `{Services} {A} (body : M A) (handler : exn -> M A) : M A :=
  fun w =>
    match body w with
    | (Returned a, w') => (Returned a, w')
    | (Raised e, w') => handler e w'
    end.

(** Record an effect in the trace. *)
Definition emit `{Services} (e : effect) : M unit :=
  fun w => (Returned tt, mkWorld (ext w) (trace w ++ [e])).

Definition logger `{Services} (entry : log_entry) : M unit := emit (Log entry).

(** A call to a collaborator. *)
Definition call `{Services} {A} (f : Ext -> (exn + A) * Ext) : M A :=
  fun w =>
    match f (ext w) with
    | (inr a, x) => (Returned a, mkWorld x (trace w))
    | (inl e, x) => (Raised e, mkWorld x (trace w))
    end.

(** A look at the outside state. *)
Definition read `{Services} {A} (f : Ext -> A) : M A :=
  fun w => (Returned (f (ext w)), w).

(** ** plugins/builtin/minecraft_utils.py: rich text *)

(** One keyword argument of the constructor call that ends
    [_llm_segment_dict_to_component]: a key that is absent from
    [component_data], or whose value is [None], is not passed.  The message
    of the first argument that fails stands for pydantic's report. *)
Definition kwarg `{Services} {A} (validate : json -> string + A)
    (v : option json) : M (option A) :=
  match v with
  | None | Some JNull => mret None
  | Some v =>
      match validate v with
      | inr a => mret (Some a)
      | inl msg => raise (ValidationError msg)
      end
  end.

Definition _llm_segment_dict_to_component `{Services}
    (segment_dict : gmap string json) : M Component.t :=
  let text := default (JStr "") (segment_dict !! "text") in
  color ← match segment_dict !! "color" with
          | Some v =>
              match Color_of_json v with
              | Some c => mret (Some c)
              | None => _ ← logger (warn_invalid_color v); mret None
              end
          | None => mret None
          end;
  text ← kwarg validate_text (Some text);
  bold ← kwarg validate_flag (segment_dict !! "bold");
  italic ← kwarg validate_flag (segment_dict !! "italic");
  underlined ← kwarg validate_flag (segment_dict !! "underlined");
  strikethrough ← kwarg validate_flag (segment_dict !! "strikethrough");
  obfuscated ← kwarg validate_flag (segment_dict !! "obfuscated");
  mret (Component.mk text color bold italic underlined strikethrough obfuscated).

(** The loop [for seg_dict in segments_data] of
    [_parse_and_validate_components]. *)
Fixpoint parse_segments `{Services} (segments_data : list json)
    (parsed_components : list Component.t) : M (list Component.t) :=
  match segments_data with
  | [] => mret parsed_components
  | seg_dict :: rest =>
      match seg_dict with
      | JObj d =>
          component ← _llm_segment_dict_to_component d;
          parse_segments rest (parsed_components ++ [component])
      | _ =>
          _ ← logger (warn_not_a_dict seg_dict);
          parse_segments rest parsed_components
      end
  end.

Definition no_valid_segment : exn := ValueError "没有可发送的有效富文本段。".

Definition _parse_and_validate_components `{Services} (json_str : string)
  : M (list Component.t) :=
  segments_data ←
    match json_loads json_str with
    | inr v => mret v
    | inl (JSONDecodeError e) =>
        _ ← logger (error_json_parse e);
        raise (ValueError ("富文本 JSON 格式错误: " +:+ e))
    | inl (LoadsRaises e) => raise e
    end;
  match segments_data with
  | JArr items =>
      parsed_components ← parse_segments items [];
      match parsed_components with
      | [] => raise no_valid_segment
      | _ => mret parsed_components
      end
  | _ => raise (ValueError "富文本 JSON 解析后必须是一个列表。")
  end.

(** [plain_text_parts] and [plain_text_content] of [send_rich_text]. *)
Definition plain_text_parts (components : list Component.t) : list string :=
  omap (fun c => match Component.text c with
                 | Some t => if PyStr.truthy t then Some t else None
                 | None => None
                 end) components.

Definition plain_text_content (components : list Component.t) : string :=
  PyStr.join "" (plain_text_parts components).

Definition no_connection (chat_key : string) : exn :=
  ConnectionError ("未能找到或连接到 Minecraft 服务器: " +:+ chat_key).

Definition send_rich_text `{Services} (chat_key rich_text_json : string)
  : M unit :=
  if negb (PyStr.startswith chat_key "minecraft-") then
    raise (ValueError "chat_key 无效，必须是 'minecraft-servername' 格式。")
  else if negb (PyStr.truthy (PyStr.strip rich_text_json)) then
    raise (ValueError "富文本 JSON 字符串不能为空。")
  else
    bot ← read (get_bot chat_key);
    match bot with
    | None => raise (no_connection chat_key)
    | Some bot =>
        try_except
          (components ← _parse_and_validate_components rich_text_json;
           channel ← call (get_channel chat_key);
           preset_name ← call (get_preset_name channel);
           let plain_text_content := plain_text_content components in
           _ ← emit (PushBotMessage chat_key plain_text_content);
           _ ← call (push_bot_message chat_key plain_text_content channel);
           let prefix_component :=
             Component.mk (Some ("<" +:+ preset_name +:+ ">")) (Some green)
                          None None None None None in
           let root_segment :=
             MessageSegment.text "" (prefix_component :: components) in
           _ ← emit (SendMsg root_segment);
           _ ← call (send_msg bot root_segment);
           logger (info_rich_text_sent chat_key))
          (fun e =>
             if is_ValueError e then
               _ ← logger (error_rich_text e); raise e
             else
               _ ← logger (error_rich_text_send chat_key e);
               raise (Exception ("发送 Minecraft 富文本消息失败: " +:+ exn_str e)))
    end.

(** ** plugins/builtin/minecraft_utils.py: RCON batches *)

(** [response_msg]: the stripped response when it is a [str], else "". *)
Definition response_msg_of (response : option string) : string :=
  match response with
  | Some response => PyStr.strip response
  | None => ""
  end.

(** [is_error], as a truth value. *)
Definition is_error (response_msg : string) : bool :=
  PyStr.truthy response_msg
  && existsb (fun prefix => PyStr.startswith response_msg prefix)
             RCON_ERROR_PREFIXES.

(** The status of a command; the classification of a response tells the
    first two apart, the third is an exception of the round trip. *)
Inductive RconStatus := Success | SemanticError | TransportError.

(** The classification of a response that the loop makes before it
    branches on [is_error]. *)
Definition classify (response : option string) : RconStatus :=
  if is_error (response_msg_of response) then SemanticError else Success.

(** What stands for the text of a success without one. *)
Definition no_output : string := "指令已成功执行，无返回内容".

(** The report of a fail-fast stop. *)
Definition error_response_of (command detail : string)
    (results_log : list string) : string :=
  let error_response := "执行命令 '" +:+ command +:+ "' 时出错: " +:+ detail in
  match results_log with
  | [] => error_response
  | _ => error_response +:+ PyStr.nl +:+ "先前成功的结果:" +:+ PyStr.nl
         +:+ PyStr.join PyStr.nl results_log
  end.

(** How one turn of the loop ends: with the log for the next turn, or with
    the [return] of the function. *)
Inductive turn :=
| Next (results_log : list string)
| Return (result : string).

(** The body of [for command in commands]. *)
Definition rcon_turn `{Services} (bot : Bot) (chat_key : string)
    (continue_on_error : bool) (results_log : list string) (command : string)
  : M turn :=
  try_except
    (_ ← emit (RconRoundTrip command);
     response ← call (send_rcon_command bot command);
     let response_msg := response_msg_of response in
     if is_error response_msg then
       _ ← logger (error_rcon chat_key command response_msg);
       if negb continue_on_error then
         mret (Return (error_response_of command response_msg results_log))
       else
         mret (Next (results_log
                     ++ ["Command '" +:+ command +:+ "': Error - " +:+ response_msg]))
     else
       let result_str :=
         if PyStr.truthy response_msg then response_msg else no_output in
       let log_entry := "Command '" +:+ command +:+ "': " +:+ result_str in
       _ ← logger (info_rcon command chat_key result_str);
       mret (Next (results_log ++ [log_entry])))
    (fun e =>
       _ ← logger (error_rcon_unexpected chat_key command (exn_str e));
       if negb continue_on_error then
         mret (Return (error_response_of command (exn_str e) results_log))
       else
         mret (Next (results_log
                     ++ ["Command '" +:+ command +:+ "': Error - " +:+ exn_str e]))).

Fixpoint rcon_loop `{Services} (bot : Bot) (chat_key : string)
    (continue_on_error : bool) (commands : list string)
    (results_log : list string) : M string :=
  match commands with
  | [] => mret (PyStr.join PyStr.nl results_log)
  | command :: rest =>
      t ← rcon_turn bot chat_key continue_on_error results_log command;
      match t with
      | Next results_log => rcon_loop bot chat_key continue_on_error rest results_log
      | Return result => mret result
      end
  end.

Definition no_connection_report (chat_key : string) : string :=
  "错误：未能找到或连接到 Minecraft 服务器: " +:+ chat_key.

Definition execute_rcon_commands `{Services} (chat_key : string)
    (commands : list string) (continue_on_error : bool) : M string :=
  if negb (PyStr.startswith chat_key "minecraft-") then
    raise (ValueError "chat_key 无效，必须是 'minecraft-servername' 格式。")
  else if negb (forallb (fun cmd => PyStr.truthy (PyStr.strip cmd)) commands) then
    raise (ValueError "RCON 命令列表无效，必须是非空字符串的列表。")
  else if bool_decide (commands = []) then
    raise (ValueError "RCON 命令列表不能为空。")
  else
    bot ← read (get_bot chat_key);
    match bot with
    | None => mret (no_connection_report chat_key)
    | Some bot => rcon_loop bot chat_key continue_on_error commands []
    end.

(** ** Vocabulary of the properties *)

(** What a round trip gives: the exception raised, or the response. *)
Definition reply : Type := exn + option string.

(** The status of a round trip: a raised exception is a transport error;
    a response is classified by [classify]. *)
Definition status_of (r : reply) : RconStatus :=
  match r with
  | inl _ => TransportError
  | inr response => classify response
  end.

(** The error detail of a round trip: [str(e)], or the stripped response. *)
Definition detail_of (r : reply) : string :=
  match r with
  | inl e => exn_str e
  | inr response => response_msg_of response
  end.

(** The line of a command that succeeded. *)
Definition success_line (command : string) (r : reply) : string :=
  "Command '" +:+ command +:+ "': "
  +:+ (if PyStr.truthy (detail_of r) then detail_of r else no_output).

(** The line of a command that failed, under [continue_on_error]. *)
Definition error_line (command : string) (r : reply) : string :=
  "Command '" +:+ command +:+ "': Error - " +:+ detail_of r.

Definition result_line (command : string) (r : reply) : string :=
  match status_of r with
  | Success => success_line command r
  | _ => error_line command r
  end.

(** The replies of the server to [commands] sent one after the other on
    [bot], from the outside state [x], and the state they leave. *)
Fixpoint serve `{Services} (bot : Bot) (commands : list string) (x : Ext)
  : list reply * Ext :=
  match commands with
  | [] => ([], x)
  | command :: rest =>
      let '(r, x1) := send_rcon_command bot command x in
      let '(rs, x2) := serve bot rest x1 in
      (r :: rs, x2)
  end.

(** The commands of the round trips in a trace. *)
Definition round_trips (tr : list effect) : list string :=
  omap (fun e => match e with RconRoundTrip c => Some c | _ => None end) tr.

(** The elements that a trace reports as skipped. *)
Definition skipped (tr : list effect) : list json :=
  omap (fun e => match e with Log (warn_not_a_dict v) => Some v | _ => None end) tr.

(** What one turn of the loop adds to the trace. *)
Definition turn_effects (chat_key command : string) (r : reply) : list effect :=
  [ RconRoundTrip command;
    Log match r with
        | inl e => error_rcon_unexpected chat_key command (exn_str e)
        | inr response =>
            let response_msg := response_msg_of response in
            if is_error response_msg then error_rcon chat_key command response_msg
            else info_rcon command chat_key
                   (if PyStr.truthy response_msg then response_msg else no_output)
        end ].

Definition batch_effects (chat_key : string) (commands : list string)
    (rs : list reply) : list effect :=
  concat (zip_with (turn_effects chat_key) commands rs).

(** A command that passes the check of [execute_rcon_commands]. *)
Definition non_blank (cmd : string) : Prop :=
  PyStr.truthy (PyStr.strip cmd) = true.

(** The [text] of a descriptor, "" when it has none. *)
Definition descriptor_text (v : json) : string :=
  match v with
  | JObj d => match d !! "text" with Some (JStr s) => s | _ => "" end
  | _ => ""
  end.

(** A style flag of a well-typed descriptor: absent, null or a boolean. *)
Definition flag_ok (v : option json) : Prop :=
  match v with
  | None | Some JNull | Some (JBool _) => True
  | _ => False
  end.

(** A valid descriptor: an object whose [text], when present, is a string
    and whose style flags, when present, are booleans. *)
Definition valid_descriptor (v : json) : Prop :=
  match v with
  | JObj d =>
      match d !! "text" with None | Some (JStr _) => True | _ => False end
      /\ flag_ok (d !! "bold") /\ flag_ok (d !! "italic")
      /\ flag_ok (d !! "underlined") /\ flag_ok (d !! "strikethrough")
      /\ flag_ok (d !! "obfuscated")
  | _ => False
  end.

Definition flag_of (v : option json) : option bool :=
  match v with Some (JBool b) => Some b | _ => None end.

(** The component of a valid descriptor. *)
Definition component_of (v : json) : Component.t :=
  match v with
  | JObj d =>
      Component.mk (Some (descriptor_text v))
                   (d !! "color" ≫= Color_of_json)
                   (flag_of (d !! "bold")) (flag_of (d !! "italic"))
                   (flag_of (d !! "underlined")) (flag_of (d !! "strikethrough"))
                   (flag_of (d !! "obfuscated"))
  | _ => Component.mk None None None None None None None
  end.

(** The elements of a parsed list that are objects, and the others. *)
Definition dicts (items : list json) : list json := List.filter is_dict items.

Definition others (items : list json) : list json :=
  List.filter (fun v => negb (is_dict v)) items.

(** A reply with which the loop goes on under either policy. *)
Definition succeeded (r : reply) : Prop := status_of r = Success.

(** The two shapes of the string that a batch returns: the lines of a loop
    that ran to its end, or the fail-fast report. *)
Inductive report :=
| Completed (lines : list string)
| Stopped (command detail : string) (previous : list string).

Definition render (rep : report) : string :=
  match rep with
  | Completed lines => PyStr.join PyStr.nl lines
  | Stopped command detail previous =>
      let head := "执行命令 '" +:+ command +:+ "' 时出错: " +:+ detail in
      match previous with
      | [] => head
      | _ => head +:+ PyStr.nl +:+ "先前成功的结果:" +:+ PyStr.nl
             +:+ PyStr.join PyStr.nl previous
      end
  end.

(** The result lines of a report: one per command that was attempted. *)
Definition result_lines (rep : report) : list string :=
  match rep with
  | Completed lines => lines
  | Stopped command detail previous =>
      ("执行命令 '" +:+ command +:+ "' 时出错: " +:+ detail) :: previous
  end.

(** The result line of a command under a policy. *)
Definition report_line (continue_on_error : bool) (command : string) (r : reply)
  : string :=
  match status_of r with
  | Success => success_line command r
  | _ =>
      if continue_on_error then error_line command r
      else "执行命令 '" +:+ command +:+ "' 时出错: " +:+ detail_of r
  end.

(** The line feeds in a string. *)
Fixpoint line_feeds (s : string) : nat :=
  match s with
  | EmptyString => 0
  | String a s' => (if (PyStr.code a =? 10)%N then 1 else 0) + line_feeds s'
  end.

(** An ASCII character that is not whitespace. *)
Definition inked (a : ascii) : bool :=
  (PyStr.code a <? 128)%N && negb (PyStr.isspace1 (PyStr.code a)).

(** ASCII text that ends with a character that is not whitespace. *)
Fixpoint solid (q : string) : bool :=
  match q with
  | EmptyString => false
  | String a EmptyString => inked a
  | String a q' => (PyStr.code a <? 128)%N && solid q'
  end.

Definition starts_inked (q : string) : bool :=
  match q with String a _ => inked a | EmptyString => false end.

(** The log entries of a trace. *)
Definition logged (tr : list effect) : list log_entry :=
  omap (fun e => match e with Log l => Some l | _ => None end) tr.

(** The calls that deliver a message, among the effects of a trace. *)
Definition deliveries (tr : list effect) : list effect :=
  List.filter (fun e => match e with Log _ => false | _ => true end) tr.

(** The speaker label that goes before the components. *)
Definition label (preset_name : string) : Component.t :=
  Component.mk (Some ("<" +:+ preset_name +:+ ">")) (Some green)
               None None None None None.

(** What reaches the caller of [send_rich_text] for an exception raised
    inside its [try], and the log entry that goes with it. *)
Definition surfaced (e : exn) : exn :=
  if is_ValueError e then e
  else Exception ("发送 Minecraft 富文本消息失败: " +:+ exn_str e).

Definition surfaced_log (chat_key : string) (e : exn) : log_entry :=
  if is_ValueError e then error_rich_text e else error_rich_text_send chat_key e.

(** The name of a colour: the value of the member of the enumeration. *)
Definition Color_name (c : Color) : string :=
  match c with
  | black => "black" | dark_blue => "dark_blue" | dark_green => "dark_green"
  | dark_aqua => "dark_aqua" | dark_red => "dark_red"
  | dark_purple => "dark_purple" | gold => "gold" | gray => "gray"
  | dark_gray => "dark_gray" | blue => "blue" | green => "green"
  | aqua => "aqua" | red => "red" | light_purple => "light_purple"
  | yellow => "yellow" | white => "white"
  end.

(** The warning that the colour of a descriptor draws. *)
Definition color_warning (d : gmap string json) : list effect :=
  match d !! "color" with
  | Some v =>
      match Color_of_json v with
      | Some _ => []
      | None => [Log (warn_invalid_color v)]
      end
  | None => []
  end.

(** The keys of the style flags. *)
Definition style_attrs : list string :=
  ["bold"; "italic"; "underlined"; "strikethrough"; "obfuscated"].

(** A lower-case hexadecimal digit. *)
Definition is_hex (a : ascii) : bool :=
  let n := PyStr.code a in
  ((48 <=? n) && (n <=? 57) || (97 <=? n) && (n <=? 102))%N.

Definition no_underscore (a : ascii) : bool := negb (PyStr.code a =? 95)%N.

(** Every character of [s] passes [p]. *)
Fixpoint all_chars (p : ascii -> bool) (s : string) : bool :=
  match s with
  | EmptyString => true
  | String a s' => p a && all_chars p s'
  end.

(** An event whose id the handler does not use: none, or a blank one. *)
Definition without_id (event : MessageEvent.t) : Prop :=
  match MessageEvent.message_id event with
  | None => True
  | Some i => PyStr.strip i = ""
  end.


(** ** A scripted server, to run the model on *)

Module Demo.

(** The server answers by the command alone; the outside state is the list
    of the commands it has received. *)
Definition answer (command : string) : exn + option string :=
  if String.eqb command "say Hello" then inr (Some "Hello")
  else if String.eqb command "say World" then inr (Some "World")
  else if String.eqb command "time set day" then inr (Some "Set the time to 24000")
  else if String.eqb command "invalid_command"
       then inr (Some "Unknown or incomplete command, see below for error")
  else if String.eqb command "kick Alex" then inr (Some " Player not found")
  else if String.eqb command "save-all" then inr (Some "  ")
  else if String.eqb command "ping" then inr None
  else if String.eqb command "stop" then inl (OtherError "Connection reset by peer")
  else inr (Some "").

(** [s] between double quotes. *)
Definition quoted (s : string) : string := String "034" (s +:+ String "034" "").

(** The documents the parser knows. *)
Definition two_segments : string :=
  "[{" +:+ quoted "text" +:+ ": " +:+ quoted "Hi " +:+ ", "
  +:+ quoted "color" +:+ ": " +:+ quoted "GOLD" +:+ "}, 7, {"
  +:+ quoted "text" +:+ ": " +:+ quoted "there" +:+ ", "
  +:+ quoted "bold" +:+ ": true}]".

Definition greeting : string :=
  "[{" +:+ quoted "text" +:+ ": " +:+ quoted "Hi " +:+ "}, {"
  +:+ quoted "italic" +:+ ": false}, {"
  +:+ quoted "text" +:+ ": " +:+ quoted "there" +:+ "}]".

Definition loads (doc : string) : loads_failure + json :=
  if String.eqb doc two_segments then
    inr (JArr [ JObj {[ "text" := JStr "Hi "; "color" := JStr "GOLD" ]};
                JNum "7";
                JObj {[ "text" := JStr "there"; "bold" := JBool true ]} ])
  else if String.eqb doc greeting then
    inr (JArr [ JObj {[ "text" := JStr "Hi " ]};
                JObj {[ "italic" := JBool false ]};
                JObj {[ "text" := JStr "there" ]} ])
  else if String.eqb doc "[1, 2]" then inr (JArr [JNum "1"; JNum "2"])
  else if String.eqb doc "[]" then inr (JArr [])
  else inl (JSONDecodeError "Expecting value: line 1 column 1 (char 0)").

Definition strict_text (v : json) : string + string :=
  match v with
  | JStr s => inr s
  | _ => inl "Input should be a valid string"
  end.

Definition strict_flag (v : json) : string + bool :=
  match v with
  | JBool b => inr b
  | _ => inl "Input should be a valid boolean"
  end.

#[export] Instance services : Services := {|
  Ext := list string;
  Bot := string;
  DBChatChannel := string;
  get_bot chat_key _ :=
    if String.eqb chat_key "minecraft-myserver" then Some "myserver" else None;
  send_rcon_command _ command received := (answer command, received ++ [command]);
  send_msg _ _ received := (inr tt, received);
  get_channel chat_key received := (inr chat_key, received);
  get_preset_name _ received := (inr "Nekro", received);
  push_bot_message _ _ _ received := (inr tt, received);
  json_loads := loads;
  validate_text := strict_text;
  validate_flag := strict_flag;
  validate_text_str := fun s => eq_refl;
  validate_flag_bool := fun b => eq_refl;
|}.

Definition start : World := mkWorld ([] : list string) [].

(** A chat event whose id is blank. *)
Definition chat : MessageEvent.t :=
  MessageEvent.mk "survival" (Some "Steve")
                  "069a79f4-44e9-4726-a5be-fca90e38aaf5" "hello" (Some "  ")
                  1700000000.

(** The same player on the same server at the same second, without an id. *)
Definition chat_again : MessageEvent.t :=
  MessageEvent.mk "survival" (Some "Steve_renamed")
                  "069a79f4-44e9-4726-a5be-fca90e38aaf5" "hello again" None
                  1700000000.

End Demo.

(* ===================================================================== *)
(** * Part II: properties                                                 *)
(* ===================================================================== *)

(** Unfold the monad down to functions on worlds. *)
Ltac run :=
  unfold mbind, M_bind, mret, M_ret, try_except, emit, logger, call, read, raise;
  simpl.

(** ** Strings *)

Section Strings.
Import PyStr.

Lemma app_cons a (s t : string) : String a s +:+ t = String a (s +:+ t).
Proof. reflexivity. Qed.

Lemma append_nil_r (s : string) : s +:+ "" = s.
Proof.
  induction s as [|a s IH]; [reflexivity|]. rewrite app_cons. congruence.
Qed.

Lemma length_append (s t : string) :
  String.length (s +:+ t) = String.length s + String.length t.
Proof.
  induction s as [|a s IH]; [reflexivity|]. rewrite app_cons. simpl. congruence.
Qed.

Lemma length_take (n : nat) (s : string) :
  n <= String.length s -> String.length (take n s) = n.
Proof.
  unfold take. revert s. induction n as [|n IH]; intros [|a s]; simpl; intros Hn;
    try reflexivity; try lia.
  f_equal. apply IH. lia.
Qed.

Lemma strip_empty : strip "" = "".
Proof. reflexivity. Qed.

Lemma truthy_true (s : string) : truthy s = true <-> s <> "".
Proof. destruct s; simpl; split; congruence. Qed.

Lemma strip_truthy (s : string) : truthy (strip s) = true -> truthy s = true.
Proof. destruct s; [discriminate | reflexivity]. Qed.

Lemma startswith_spec (s p : string) :
  startswith s p = true <-> exists rest, s = p +:+ rest.
Proof.
  unfold startswith. revert s. induction p as [|a p IH]; intros s.
  - split; [exists s; reflexivity | intros _; destruct s; reflexivity].
  - destruct s as [|b s].
    + split; [discriminate | intros [rest Hs]; discriminate].
    + cbn [String.prefix]. destruct (Ascii.ascii_dec a b) as [Hab|Hab].
      * subst b. rewrite IH. split; intros [rest Hs]; exists rest.
        -- rewrite app_cons. congruence.
        -- rewrite app_cons in Hs. congruence.
      * split; [discriminate | intros [rest Hs]].
        rewrite app_cons in Hs. congruence.
Qed.

Lemma startswith_truthy (s p : string) :
  startswith s p = true -> truthy p = true -> truthy s = true.
Proof. destruct p, s; simpl; intros; congruence. Qed.

Lemma join_empty_cons (s : string) (parts : list string) :
  join "" (s :: parts) = s +:+ join "" parts.
Proof.
  unfold join. destruct parts as [|t parts]; simpl.
  - symmetry. apply append_nil_r.
  - reflexivity.
Qed.

(** [strip] leaves a word that starts the text where it is. *)

Lemma lstrip_inked a (s : string) :
  inked a = true -> lstrip (String a s) = String a s.
Proof.
  unfold inked. intros Ha. apply andb_true_iff in Ha as [Hlt Hsp].
  apply negb_true_iff in Hsp. apply N.ltb_lt in Hlt.
  cbn [lstrip]. rewrite Hsp.
  assert (H2 : forall b, isspace2 (code a) b = false).
  { intros b. unfold isspace2. destruct (N.eqb_spec (code a) 194); [lia|reflexivity]. }
  assert (H3 : forall b c, isspace3 (code a) b c = false).
  { intros b c. unfold isspace3.
    destruct (N.eqb_spec (code a) 225); [lia|].
    destruct (N.eqb_spec (code a) 226); [lia|].
    destruct (N.eqb_spec (code a) 227); [lia|]. reflexivity. }
  destruct s as [|b [|c s]]; rewrite ?H2, ?H3; reflexivity.
Qed.

Lemma lstrip_ascii_space a (s : string) :
  (code a <? 128)%N = true -> inked a = false -> lstrip (String a s) = lstrip s.
Proof.
  unfold inked. intros -> Hsp. simpl in Hsp. apply negb_false_iff in Hsp.
  cbn [lstrip]. rewrite Hsp. reflexivity.
Qed.

Lemma lstrip_solid (q rest : string) :
  solid q = true -> truthy (lstrip (q +:+ rest)) = true.
Proof.
  induction q as [|a q IH]; [discriminate|]. intros Hq. rewrite app_cons.
  destruct (inked a) eqn:Ha.
  - rewrite lstrip_inked by assumption. reflexivity.
  - destruct q as [|b q]; [simpl in Hq; congruence|].
    cbn [solid] in Hq. apply andb_true_iff in Hq as [Hlt Hq].
    rewrite lstrip_ascii_space by assumption. apply IH. assumption.
Qed.

Lemma rstrip_solid (q rest : string) :
  solid q = true -> exists rest', rstrip (q +:+ rest) = q +:+ rest'.
Proof.
  induction q as [|a q IH]; [discriminate|]. intros Hq.
  pose proof (lstrip_solid _ rest Hq) as Ht. rewrite app_cons in *.
  cbn [rstrip]. rewrite Ht.
  destruct q as [|b q].
  - exists (rstrip rest). reflexivity.
  - cbn [solid] in Hq. apply andb_true_iff in Hq as [_ Hq].
    destruct (IH Hq) as [rest' ->]. exists rest'. reflexivity.
Qed.

Lemma strip_keeps_prefix (s q : string) :
  starts_inked q = true -> solid q = true ->
  startswith s q = true -> startswith (strip s) q = true.
Proof.
  intros Hhead Hq Hs. apply startswith_spec in Hs as [rest ->].
  apply startswith_spec. unfold strip.
  destruct q as [|a q]; [discriminate|]. simpl in Hhead.
  rewrite app_cons, lstrip_inked, <- app_cons by assumption.
  apply rstrip_solid. assumption.
Qed.

End Strings.

(** ** The message normalizer *)

Section Normalizer.

Example sha1_abc : Sha1.hexdigest "abc" = "a9993e364706816aba3e25717850c26c9cd0d89d".
Proof. vm_compute. reflexivity. Qed.

Example sha1_empty : Sha1.hexdigest "" = "da39a3ee5e6b4b0d3255bfef95601890afd80709".
Proof. vm_compute. reflexivity. Qed.

Example sha1_two_blocks :
  Sha1.hexdigest "abcdbcdecdefdefgefghfghighijhijkijkljklmklmnlmnomnopnopq"
  = "84983e441c3bd26ebaae4aa1f95129e5e54670f1".
Proof. vm_compute. reflexivity. Qed.

Lemma hex_length (n : nat) (x : N) : String.length (Sha1.hex n x) = n.
Proof. induction n as [|n IH]; simpl; congruence. Qed.

Lemma hexdigest_length (s : string) : String.length (Sha1.hexdigest s) = 40.
Proof.
  unfold Sha1.hexdigest. cbv zeta. rewrite !length_append, !hex_length. reflexivity.
Qed.

(** The pseudonym has ten characters. *)
Lemma short_player_id_length (uuid : string) :
  String.length (short_player_id uuid) = 10.
Proof.
  unfold short_player_id. apply length_take. rewrite hexdigest_length. lia.
Qed.

(** The user id and the sender id are the pseudonym of the player's UUID,
    whatever else the event holds. *)
Lemma user_id_of_uuid (event : MessageEvent.t) :
  let '(_, plt_user, plt_msg) := handle_message event in
  PlatformUser.user_id plt_user
    = PyStr.take 10 (Sha1.hexdigest (MessageEvent.player_uuid event))
  /\ PlatformMessage.sender_id plt_msg = PlatformUser.user_id plt_user.
Proof. split; reflexivity. Qed.

(** Ten hexadecimal digits do not tell all players apart: two version-4
    UUIDs with one pseudonym. *)
Lemma short_player_id_collision :
  "2509f6e3-b817-4b53-85bf-5f02da670cf9" <> "0d25b311-f4b1-4097-9c9c-baffa352af8d"
  /\ short_player_id "2509f6e3-b817-4b53-85bf-5f02da670cf9" = "9fe74e5375"
  /\ short_player_id "0d25b311-f4b1-4097-9c9c-baffa352af8d" = "9fe74e5375".
Proof. split; [discriminate|]. split; vm_compute; reflexivity. Qed.

(** C7. The id of the normalized message is the id of the event when that
    id is present and not blank after stripping; otherwise it is
    "mc_{server}_{userId}_{timestamp}"; in both cases it is not empty. *)
Theorem message_id_rule (event : MessageEvent.t) :
  let '(_, plt_user, plt_msg) := handle_message event in
  (forall i, MessageEvent.message_id event = Some i -> PyStr.strip i <> "" ->
             PlatformMessage.message_id plt_msg = i)
  /\ (MessageEvent.message_id event = None
      \/ (exists i, MessageEvent.message_id event = Some i /\ PyStr.strip i = "") ->
      PlatformMessage.message_id plt_msg =
        "mc_" +:+ MessageEvent.server_name event +:+ "_"
        +:+ PlatformUser.user_id plt_user +:+ "_"
        +:+ PyStr.of_int (MessageEvent.timestamp event))
  /\ PlatformMessage.message_id plt_msg <> "".
Proof.
  unfold handle_message, msg_id_of. simpl.
  destruct (MessageEvent.message_id event) as [i|].
  - destruct (PyStr.truthy i && PyStr.truthy (PyStr.strip i)) eqn:E.
    + apply andb_true_iff in E as [Hi Hs]. split; [|split].
      * intros ? [= <-] _. reflexivity.
      * intros [?|(j & [= <-] & Hj)]; [discriminate|].
        rewrite Hj in Hs. discriminate.
      * apply truthy_true. assumption.
    + split; [|split].
      * intros j [= <-] Hj. apply truthy_true in Hj.
        rewrite Hj, (strip_truthy _ Hj) in E. discriminate.
      * intros _. reflexivity.
      * discriminate.
  - split; [|split]; [discriminate | reflexivity | discriminate].
Qed.

End Normalizer.

(** ** The classification of a response *)

Section Classifier.

Lemma prefixes_truthy :
  Forall (fun prefix => PyStr.truthy prefix = true) RCON_ERROR_PREFIXES.
Proof. repeat constructor. Qed.

Lemma prefixes_solid :
  Forall (fun q => starts_inked q = true /\ solid q = true) RCON_ERROR_PREFIXES.
Proof. repeat constructor. Qed.

Lemma is_error_spec (response_msg : string) :
  is_error response_msg = true <->
  exists prefix, prefix ∈ RCON_ERROR_PREFIXES
                 /\ PyStr.startswith response_msg prefix = true.
Proof.
  unfold is_error. rewrite andb_true_iff, existsb_exists. split.
  - intros [_ (p & Hin & Hp)]. exists p. split; [|assumption].
    apply list_elem_of_In. assumption.
  - intros (p & Hin & Hp). split.
    + apply (startswith_truthy _ p); [assumption|].
      apply (proj1 (Forall_forall _ _) prefixes_truthy). assumption.
    + exists p. split; [|assumption]. apply list_elem_of_In. assumption.
Qed.

(** C3, as the code has it.  A response is classified as a semantic error
    exactly when it is a string whose text, stripped of the whitespace at
    both ends, starts with one of the known prefixes; every other response
    is a success. *)
Theorem classifier_looks_at_stripped_text (response : option string) :
  (classify response = SemanticError <->
   exists s prefix, response = Some s /\ prefix ∈ RCON_ERROR_PREFIXES
                    /\ PyStr.startswith (PyStr.strip s) prefix = true)
  /\ (classify response = SemanticError \/ classify response = Success).
Proof.
  unfold classify. destruct (is_error (response_msg_of response)) eqn:E.
  - split; [|left; reflexivity]. split; [intros _|reflexivity].
    apply is_error_spec in E as (p & Hin & Hp).
    destruct response as [s|]; [exists s, p; auto|].
    simpl in Hp. destruct p; [|discriminate].
    apply (proj1 (Forall_forall _ _) prefixes_truthy) in Hin. discriminate.
  - split; [|right; reflexivity]. split; [discriminate|].
    intros (s & p & -> & Hin & Hp).
    assert (is_error (PyStr.strip s) = true) by (apply is_error_spec; eauto).
    simpl in E. congruence.
Qed.

(** C3, as the claim has it, fails: a response with a space in front starts
    with none of the prefixes and is a semantic error all the same. *)
Lemma leading_space_is_classified_by_stripped_text :
  classify (Some " Player not found") = SemanticError
  /\ ~ (exists prefix, prefix ∈ RCON_ERROR_PREFIXES
                       /\ PyStr.startswith " Player not found" prefix = true).
Proof.
  split; [reflexivity|]. intros (p & Hin & Hp).
  assert (Hex : existsb (fun prefix => PyStr.startswith " Player not found" prefix)
                  RCON_ERROR_PREFIXES = true).
  { apply existsb_exists. exists p. split; [apply list_elem_of_In|]; assumption. }
  vm_compute in Hex. discriminate.
Qed.

(** X6.  A response that starts with a known prefix is a semantic error,
    whatever follows the prefix: the strip does not reach into a prefix
    that starts the text. *)
Lemma known_prefix_is_semantic_error (s prefix : string) :
  prefix ∈ RCON_ERROR_PREFIXES -> PyStr.startswith s prefix = true ->
  classify (Some s) = SemanticError.
Proof.
  intros Hin Hs.
  destruct (proj1 (Forall_forall _ _) prefixes_solid prefix Hin) as [Hh Hq].
  assert (E : is_error (PyStr.strip s) = true).
  { apply is_error_spec. exists prefix. split; [assumption|].
    apply strip_keeps_prefix; assumption. }
  unfold classify. simpl. rewrite E. reflexivity.
Qed.

End Classifier.

(** ** The batch executor *)

Section Executor.
Context `{S : Services}.
Implicit Types (bot : Bot) (w : World) (x : Ext) (r : reply) (rs : list reply).

Lemma serve_length bot commands x rs x' :
  serve bot commands x = (rs, x') -> length rs = length commands.
Proof.
  revert x rs x'. induction commands as [|c cs IH]; simpl; intros x rs x' E.
  - injection E as <- _. reflexivity.
  - destruct (send_rcon_command bot c x) as [r x1].
    destruct (serve bot cs x1) as [rs' x2] eqn:E'.
    injection E as <- _. simpl. f_equal. eauto.
Qed.

Lemma serve_app bot pre rest x rs1 x1 rs2 x2 :
  serve bot pre x = (rs1, x1) -> serve bot rest x1 = (rs2, x2) ->
  serve bot (pre ++ rest) x = (rs1 ++ rs2, x2).
Proof.
  revert x rs1 x1. induction pre as [|c cs IH]; simpl; intros x rs1 x1 E1 E2.
  - injection E1 as <- <-. exact E2.
  - destruct (send_rcon_command bot c x) as [r y].
    destruct (serve bot cs y) as [rs' y'] eqn:E'.
    injection E1 as <- <-. rewrite (IH _ _ _ E' E2). reflexivity.
Qed.

Lemma round_trips_app tr1 tr2 :
  round_trips (tr1 ++ tr2) = round_trips tr1 ++ round_trips tr2.
Proof. apply omap_app. Qed.

Lemma round_trips_batch chat_key commands rs :
  length rs = length commands ->
  round_trips (batch_effects chat_key commands rs) = commands.
Proof.
  unfold batch_effects. revert rs.
  induction commands as [|c cs IH]; intros [|r rs] Hlen; try discriminate; simpl.
  - reflexivity.
  - f_equal. apply IH. simpl in Hlen. congruence.
Qed.

(** One turn: a round trip, a log entry, and the next step by the status
    of the reply. *)
Lemma rcon_turn_spec bot chat_key coe results_log command w r x :
  send_rcon_command bot command (ext w) = (r, x) ->
  rcon_turn bot chat_key coe results_log command w =
    (Returned
       match status_of r with
       | Success => Next (results_log ++ [success_line command r])
       | _ =>
           if coe then Next (results_log ++ [error_line command r])
           else Return (error_response_of command (detail_of r) results_log)
       end,
     mkWorld x (trace w ++ turn_effects chat_key command r)).
Proof.
  intros E. unfold rcon_turn. run. rewrite E.
  unfold status_of, classify, success_line, error_line, turn_effects.
  destruct r as [e|response]; simpl.
  - destruct coe; simpl; rewrite <- app_assoc; reflexivity.
  - destruct (is_error (response_msg_of response)); simpl;
      [destruct coe; simpl|]; rewrite <- app_assoc; reflexivity.
Qed.

Lemma rcon_loop_cons bot chat_key coe command rest results_log w r x :
  send_rcon_command bot command (ext w) = (r, x) ->
  rcon_loop bot chat_key coe (command :: rest) results_log w =
    match (match status_of r with
           | Success => Next (results_log ++ [success_line command r])
           | _ =>
               if coe then Next (results_log ++ [error_line command r])
               else Return (error_response_of command (detail_of r) results_log)
           end) with
    | Next results_log' =>
        rcon_loop bot chat_key coe rest results_log'
                  (mkWorld x (trace w ++ turn_effects chat_key command r))
    | Return result =>
        (Returned result, mkWorld x (trace w ++ turn_effects chat_key command r))
    end.
Proof.
  intros E. cbn [rcon_loop]. unfold mbind at 1, M_bind at 1.
  rewrite (rcon_turn_spec _ _ _ _ _ _ _ _ E).
  destruct (status_of r); [reflexivity | destruct coe; reflexivity ..].
Qed.

(** Commands that succeed are passed one by one, under either policy. *)
Lemma rcon_loop_prefix bot chat_key coe pre rest results_log w rs x1 :
  serve bot pre (ext w) = (rs, x1) ->
  Forall succeeded rs ->
  rcon_loop bot chat_key coe (pre ++ rest) results_log w =
    rcon_loop bot chat_key coe rest
              (results_log ++ zip_with success_line pre rs)
              (mkWorld x1 (trace w ++ batch_effects chat_key pre rs)).
Proof.
  revert results_log w rs x1.
  induction pre as [|c cs IH]; intros results_log w rs x1 E Hok.
  - simpl in E. injection E as <- <-. simpl.
    unfold batch_effects. simpl. rewrite !app_nil_r. destruct w; reflexivity.
  - simpl in E. destruct (send_rcon_command bot c (ext w)) as [r y] eqn:Ec.
    destruct (serve bot cs y) as [rs' y'] eqn:E'. injection E as <- <-.
    apply Forall_cons in Hok as [Hr Hok].
    rewrite <- app_comm_cons, (rcon_loop_cons _ _ _ _ _ _ _ _ _ Ec).
    unfold succeeded in Hr. rewrite Hr.
    rewrite (IH _ (mkWorld y _) rs' y' E' Hok). simpl.
    unfold batch_effects. simpl. rewrite <- !app_assoc. reflexivity.
Qed.

Lemma rcon_loop_all_succeed bot chat_key coe commands results_log w rs x1 :
  serve bot commands (ext w) = (rs, x1) ->
  Forall succeeded rs ->
  rcon_loop bot chat_key coe commands results_log w =
    (Returned (PyStr.join PyStr.nl (results_log ++ zip_with success_line commands rs)),
     mkWorld x1 (trace w ++ batch_effects chat_key commands rs)).
Proof.
  intros E Hok.
  rewrite <- (app_nil_r commands) at 1.
  rewrite (rcon_loop_prefix _ _ _ _ _ _ _ _ _ E Hok). reflexivity.
Qed.

Lemma rcon_loop_fail_fast bot chat_key pre command post results_log w rs x1 r x2 :
  serve bot pre (ext w) = (rs, x1) ->
  Forall succeeded rs ->
  send_rcon_command bot command x1 = (r, x2) ->
  status_of r <> Success ->
  rcon_loop bot chat_key false (pre ++ command :: post) results_log w =
    (Returned (error_response_of command (detail_of r)
                 (results_log ++ zip_with success_line pre rs)),
     mkWorld x2 (trace w ++ batch_effects chat_key pre rs
                 ++ turn_effects chat_key command r)).
Proof.
  intros E Hok Ec Hr.
  rewrite (rcon_loop_prefix _ _ _ _ _ _ _ _ _ E Hok).
  rewrite (rcon_loop_cons _ _ _ _ _ _ (mkWorld x1 _) _ _ Ec).
  destruct (status_of r); [congruence | ..]; simpl; rewrite <- app_assoc; reflexivity.
Qed.

Lemma rcon_loop_continue bot chat_key commands results_log w rs x1 :
  serve bot commands (ext w) = (rs, x1) ->
  rcon_loop bot chat_key true commands results_log w =
    (Returned (PyStr.join PyStr.nl (results_log ++ zip_with result_line commands rs)),
     mkWorld x1 (trace w ++ batch_effects chat_key commands rs)).
Proof.
  revert results_log w rs x1.
  induction commands as [|c cs IH]; intros results_log w rs x1 E.
  - simpl in E. injection E as <- <-. simpl.
    unfold batch_effects. simpl. rewrite !app_nil_r. destruct w; reflexivity.
  - simpl in E. destruct (send_rcon_command bot c (ext w)) as [r y] eqn:Ec.
    destruct (serve bot cs y) as [rs' y'] eqn:E'. injection E as <- <-.
    rewrite (rcon_loop_cons _ _ _ _ _ _ _ _ _ Ec).
    replace (match status_of r with
             | Success => Next (results_log ++ [success_line c r])
             | _ => if true then Next (results_log ++ [error_line c r])
                    else Return (error_response_of c (detail_of r) results_log)
             end) with (Next (results_log ++ [result_line c r]))
      by (unfold result_line; destruct (status_of r); reflexivity).
    rewrite (IH _ (mkWorld y _) rs' y' E'). simpl.
    unfold batch_effects. simpl. rewrite <- !app_assoc. reflexivity.
Qed.

(** Either every command of the batch succeeds, or there is a first one
    that does not. *)
Lemma first_failure bot commands x rs x' :
  serve bot commands x = (rs, x') ->
  Forall succeeded rs \/
  exists pre command post rs1 x1 r x2,
    commands = pre ++ command :: post /\
    serve bot pre x = (rs1, x1) /\ Forall succeeded rs1 /\
    send_rcon_command bot command x1 = (r, x2) /\ status_of r <> Success.
Proof.
  revert x rs x'. induction commands as [|c cs IH]; intros x rs x' E.
  - simpl in E. injection E as <- _. left. constructor.
  - simpl in E. destruct (send_rcon_command bot c x) as [r y] eqn:Ec.
    destruct (serve bot cs y) as [rs' y'] eqn:E'. injection E as <- <-.
    destruct (status_of r) eqn:Hr.
    + destruct (IH _ _ _ E')
        as [Hok|(pre & c' & post & rs1 & x1 & r' & x2 & -> & E1 & Hok & Ec' & Hr')].
      * left. constructor; assumption.
      * right. exists (c :: pre), c', post, (r :: rs1), x1, r', x2.
        split; [reflexivity|]. split; [simpl; rewrite Ec, E1; reflexivity|].
        split; [constructor; assumption|]. split; assumption.
    + right. exists [], c, cs, [], x, r, y. simpl.
      repeat split; [constructor | assumption | congruence].
    + right. exists [], c, cs, [], x, r, y. simpl.
      repeat split; [constructor | assumption | congruence].
Qed.

Lemma non_blank_forallb commands :
  Forall non_blank commands ->
  forallb (fun cmd => PyStr.truthy (PyStr.strip cmd)) commands = true.
Proof.
  induction 1 as [|c cs Hc _ IH]; simpl; [reflexivity|].
  unfold non_blank in Hc. rewrite Hc, IH. reflexivity.
Qed.

(** A batch that passes the checks, on a live connection, is the loop. *)
Lemma execute_rcon_commands_live chat_key commands coe w bot :
  PyStr.startswith chat_key "minecraft-" = true ->
  Forall non_blank commands -> commands <> [] ->
  get_bot chat_key (ext w) = Some bot ->
  execute_rcon_commands chat_key commands coe w =
    rcon_loop bot chat_key coe commands [] w.
Proof.
  intros Hkey Hcmds Hne Hbot. unfold execute_rcon_commands.
  rewrite Hkey, (non_blank_forallb _ Hcmds). simpl.
  rewrite bool_decide_eq_false_2 by assumption.
  run. rewrite Hbot. reflexivity.
Qed.

(** The checks come before the lookup of the connection. *)
Lemma execute_rcon_commands_bad_key chat_key commands coe w :
  PyStr.startswith chat_key "minecraft-" = false ->
  execute_rcon_commands chat_key commands coe w =
    (Raised (ValueError "chat_key 无效，必须是 'minecraft-servername' 格式。"), w).
Proof. intros E. unfold execute_rcon_commands. rewrite E. reflexivity. Qed.

Lemma execute_rcon_commands_empty chat_key coe w :
  PyStr.startswith chat_key "minecraft-" = true ->
  execute_rcon_commands chat_key [] coe w =
    (Raised (ValueError "RCON 命令列表不能为空。"), w).
Proof. intros E. unfold execute_rcon_commands. rewrite E. reflexivity. Qed.

(** C1.  Under fail-fast, the batch stops at the first command that does
    not succeed: the commands after it are not sent, and the result is the
    report of the failing command and its error detail, followed by the
    success lines of the commands before it. *)
Theorem fail_fast_stops_at_first_failure
    chat_key pre command post w bot rs x1 r x2 :
  PyStr.startswith chat_key "minecraft-" = true ->
  Forall non_blank (pre ++ command :: post) ->
  get_bot chat_key (ext w) = Some bot ->
  serve bot pre (ext w) = (rs, x1) ->
  Forall succeeded rs ->
  send_rcon_command bot command x1 = (r, x2) ->
  status_of r = SemanticError \/ status_of r = TransportError ->
  let head := "执行命令 '" +:+ command +:+ "' 时出错: " +:+ detail_of r in
  let previous := zip_with success_line pre rs in
  exists w',
    execute_rcon_commands chat_key (pre ++ command :: post) false w =
      (Returned match pre with
                | [] => head
                | _ => head +:+ PyStr.nl +:+ "先前成功的结果:" +:+ PyStr.nl
                       +:+ PyStr.join PyStr.nl previous
                end, w')
    /\ ext w' = x2
    /\ round_trips (trace w') = round_trips (trace w) ++ pre ++ [command]
    /\ length previous = length pre.
Proof.
  intros Hkey Hcmds Hbot E Hok Ec Hr head previous.
  assert (Hlen := serve_length _ _ _ _ _ E).
  eexists. split; [|split; [|split]].
  - rewrite (execute_rcon_commands_live _ _ _ _ bot Hkey Hcmds) by
      (try assumption; destruct pre; discriminate).
    rewrite (rcon_loop_fail_fast _ _ _ _ _ _ _ _ _ _ _ E Hok Ec)
      by (destruct Hr as [-> | ->]; discriminate).
    f_equal. f_equal. unfold error_response_of. simpl.
    destruct pre as [|c cs], rs as [|r0 rs0]; try discriminate; reflexivity.
  - reflexivity.
  - simpl. rewrite !round_trips_app, round_trips_batch by assumption.
    reflexivity.
  - unfold previous. rewrite length_zip_with_l_eq; [reflexivity | congruence].
Qed.

Lemma success_lines coe commands rs :
  Forall succeeded rs ->
  zip_with success_line commands rs = zip_with result_line commands rs
  /\ zip_with success_line commands rs = zip_with (report_line coe) commands rs.
Proof.
  revert rs. induction commands as [|c cs IH]; intros [|r rs] Hok;
    try (split; reflexivity).
  apply Forall_cons in Hok as [Hr Hok]. destruct (IH _ Hok) as [E1 E2]. simpl.
  rewrite <- E1, <- E2. unfold result_line, report_line. rewrite Hr.
  split; reflexivity.
Qed.

(** C2.  The report has one result line for each command that was
    attempted, and no other.  A loop that is not stopped (continue-on-error,
    or no failure) attempts every command, and the string returned is its
    lines joined by line feeds, in the order of the commands. *)
Theorem result_lines_match_attempts chat_key commands coe w bot :
  PyStr.startswith chat_key "minecraft-" = true ->
  Forall non_blank commands -> commands <> [] ->
  get_bot chat_key (ext w) = Some bot ->
  exists rep attempted rs w',
    execute_rcon_commands chat_key commands coe w = (Returned (render rep), w')
    /\ round_trips (trace w') = round_trips (trace w) ++ attempted
    /\ serve bot attempted (ext w) = (rs, ext w')
    /\ attempted `prefix_of` commands
    /\ result_lines rep ≡ₚ zip_with (report_line coe) attempted rs
    /\ length (result_lines rep) = length attempted
    /\ (coe = true \/ Forall succeeded rs ->
        attempted = commands
        /\ rep = Completed (zip_with result_line commands rs)
        /\ forall i command r,
             commands !! i = Some command -> rs !! i = Some r ->
             result_lines rep !! i = Some (result_line command r)).
Proof.
  intros Hkey Hcmds Hne Hbot.
  rewrite (execute_rcon_commands_live _ _ _ _ bot Hkey Hcmds Hne Hbot).
  destruct (serve bot commands (ext w)) as [rs x1] eqn:E.
  assert (Hlen := serve_length _ _ _ _ _ E).
  assert (Hdone : coe = true \/ Forall succeeded rs ->
    exists rep attempted rs0 w',
      rcon_loop bot chat_key coe commands [] w = (Returned (render rep), w')
      /\ round_trips (trace w') = round_trips (trace w) ++ attempted
      /\ serve bot attempted (ext w) = (rs0, ext w')
      /\ attempted `prefix_of` commands
      /\ result_lines rep ≡ₚ zip_with (report_line coe) attempted rs0
      /\ length (result_lines rep) = length attempted
      /\ (coe = true \/ Forall succeeded rs0 ->
          attempted = commands
          /\ rep = Completed (zip_with result_line commands rs0)
          /\ forall i command r,
               commands !! i = Some command -> rs0 !! i = Some r ->
               result_lines rep !! i = Some (result_line command r))).
  { intros Hc.
    exists (Completed (zip_with result_line commands rs)), commands, rs,
           (mkWorld x1 (trace w ++ batch_effects chat_key commands rs)).
    split; [|split; [|split; [|split; [|split; [|split]]]]].
    - destruct Hc as [-> | Hok].
      + apply (rcon_loop_continue _ _ _ [] _ _ _ E).
      + rewrite (rcon_loop_all_succeed _ _ _ _ [] _ _ _ E Hok).
        simpl. rewrite (proj1 (success_lines coe commands rs Hok)). reflexivity.
    - simpl. rewrite round_trips_app, round_trips_batch by assumption. reflexivity.
    - exact E.
    - reflexivity.
    - simpl. destruct Hc as [-> | Hok].
      + reflexivity.
      + destruct (success_lines coe commands rs Hok) as [<- <-]. reflexivity.
    - simpl. rewrite length_zip_with_l_eq by congruence. reflexivity.
    - intros _. split; [reflexivity|]. split; [reflexivity|].
      intros i command r Hi Hr. simpl.
      rewrite lookup_zip_with, Hi. simpl. rewrite Hr. reflexivity. }
  destruct coe; [apply Hdone; left; reflexivity|].
  destruct (first_failure _ _ _ _ _ E)
    as [Hok|(pre & c & post & rs1 & y1 & r & y2 & -> & E1 & Hok & Ec & Hr)];
    [apply Hdone; right; assumption|].
  assert (Hlen1 := serve_length _ _ _ _ _ E1).
  exists (Stopped c (detail_of r) (zip_with success_line pre rs1)),
         (pre ++ [c]), (rs1 ++ [r]),
         (mkWorld y2 (trace w ++ batch_effects chat_key pre rs1
                      ++ turn_effects chat_key c r)).
  split; [|split; [|split; [|split; [|split; [|split]]]]].
  - rewrite (rcon_loop_fail_fast _ _ _ _ _ _ _ _ _ _ _ E1 Hok Ec Hr). reflexivity.
  - simpl. rewrite !round_trips_app, round_trips_batch by assumption. reflexivity.
  - apply (serve_app _ _ _ _ _ _ _ _ E1). simpl. rewrite Ec. reflexivity.
  - exists post. rewrite <- app_assoc. reflexivity.
  - rewrite zip_with_app by congruence. simpl.
    rewrite <- (proj2 (success_lines false pre rs1 Hok)).
    unfold report_line at 1.
    destruct (status_of r); [congruence | apply Permutation_cons_append ..].
  - simpl. rewrite length_zip_with_l_eq, length_app by congruence. simpl. lia.
  - intros [?|Hall]; [discriminate|].
    apply Forall_app in Hall as [_ Hall]. apply Forall_cons in Hall as [Hs _].
    contradiction.
Qed.

Lemma line_feeds_append (s t : string) :
  line_feeds (s +:+ t) = line_feeds s + line_feeds t.
Proof.
  induction s as [|a s IH]; [reflexivity|]. rewrite app_cons. simpl.
  rewrite IH. lia.
Qed.

(** Lines that hold no line feed are the lines of the joined text. *)
Lemma line_feeds_join (lines : list string) :
  Forall (fun l => line_feeds l = 0) lines ->
  line_feeds (PyStr.join PyStr.nl lines) = length lines - 1.
Proof.
  unfold PyStr.join. induction 1 as [|l ls Hl Hls IH]; [reflexivity|].
  destruct ls as [|l' ls]; [simpl; lia|].
  change (String.concat PyStr.nl (l :: l' :: ls))
    with (l +:+ PyStr.nl +:+ String.concat PyStr.nl (l' :: ls)).
  rewrite !line_feeds_append, IH, Hl. simpl. lia.
Qed.

(** C4, as the code has it.  A batch that passes the checks of its
    arguments and whose channel key has no live connection returns the
    report of the missing connection, and does nothing else. *)
Theorem no_connection_is_reported chat_key commands coe w :
  PyStr.startswith chat_key "minecraft-" = true ->
  Forall non_blank commands -> commands <> [] ->
  get_bot chat_key (ext w) = None ->
  execute_rcon_commands chat_key commands coe w =
    (Returned ("错误：未能找到或连接到 Minecraft 服务器: " +:+ chat_key), w)
  /\ round_trips (trace (snd (execute_rcon_commands chat_key commands coe w)))
     = round_trips (trace w).
Proof.
  intros Hkey Hcmds Hne Hbot.
  assert (Hrun : execute_rcon_commands chat_key commands coe w =
            (Returned ("错误：未能找到或连接到 Minecraft 服务器: " +:+ chat_key), w)).
  { unfold execute_rcon_commands.
    rewrite Hkey, (non_blank_forallb _ Hcmds). simpl.
    rewrite bool_decide_eq_false_2 by assumption.
    run. rewrite Hbot. reflexivity. }
  rewrite Hrun. split; reflexivity.
Qed.

(** One turn on a blank response: a success, whose line holds the
    placeholder. *)
Lemma rcon_turn_blank_success
    bot chat_key coe results_log command w s x :
  send_rcon_command bot command (ext w) = (inr (Some s), x) ->
  PyStr.strip s = "" ->
  classify (Some s) = Success
  /\ rcon_turn bot chat_key coe results_log command w =
       (Returned (Next (results_log
                        ++ ["Command '" +:+ command +:+ "': " +:+ "指令已成功执行，无返回内容"])),
        mkWorld x (trace w ++ turn_effects chat_key command (inr (Some s))))
  /\ "指令已成功执行，无返回内容" <> "".
Proof.
  intros E Hblank.
  assert (Hs : classify (Some s) = Success).
  { unfold classify, response_msg_of. rewrite Hblank. reflexivity. }
  split; [exact Hs|]. split; [|discriminate].
  rewrite (rcon_turn_spec _ _ _ _ _ _ _ _ E). simpl. rewrite Hs.
  unfold success_line. simpl. rewrite Hblank. reflexivity.
Qed.

(** The loop passes the commands before [rest] when it is not stopped at
    one of them. *)
Lemma rcon_loop_reaches bot chat_key coe pre rest results_log w rs x1 :
  serve bot pre (ext w) = (rs, x1) ->
  coe = true \/ Forall succeeded rs ->
  rcon_loop bot chat_key coe (pre ++ rest) results_log w =
    rcon_loop bot chat_key coe rest
              (results_log ++ zip_with (report_line coe) pre rs)
              (mkWorld x1 (trace w ++ batch_effects chat_key pre rs)).
Proof.
  revert results_log w rs x1.
  induction pre as [|c cs IH]; intros results_log w rs x1 E Hgo.
  - simpl in E. injection E as <- <-. simpl.
    unfold batch_effects. simpl. rewrite !app_nil_r. destruct w; reflexivity.
  - simpl in E. destruct (send_rcon_command bot c (ext w)) as [r y] eqn:Ec.
    destruct (serve bot cs y) as [rs' y'] eqn:E'. injection E as <- <-.
    rewrite <- app_comm_cons, (rcon_loop_cons _ _ _ _ _ _ _ _ _ Ec).
    assert (Hgo' : coe = true \/ Forall succeeded rs').
    { destruct Hgo as [?|Hok]; [left; assumption|].
      right. apply Forall_cons in Hok as [_ ?]. assumption. }
    assert (Hturn : match status_of r with
                    | Success => Next (results_log ++ [success_line c r])
                    | _ => if coe then Next (results_log ++ [error_line c r])
                           else Return (error_response_of c (detail_of r) results_log)
                    end = Next (results_log ++ [report_line coe c r])).
    { unfold report_line. destruct (status_of r) eqn:Hr; try reflexivity;
        (destruct Hgo as [->|Hok]; [reflexivity|]);
        apply Forall_cons in Hok as [Hs _]; unfold succeeded in Hs; congruence. }
    rewrite Hturn, (IH _ (mkWorld y _) rs' y' E' Hgo'). simpl.
    unfold batch_effects. simpl. rewrite <- !app_assoc. reflexivity.
Qed.

(** Whatever follows, the lines already in the log stay in the report, in
    their place. *)
Lemma rcon_loop_keeps_log bot chat_key coe commands results_log w :
  exists rep after w',
    rcon_loop bot chat_key coe commands results_log w = (Returned (render rep), w')
    /\ (rep = Completed (results_log ++ after)
        \/ exists command detail, rep = Stopped command detail (results_log ++ after)).
Proof.
  revert results_log w. induction commands as [|c cs IH]; intros results_log w.
  - exists (Completed results_log), [], w. rewrite app_nil_r. split; [reflexivity|].
    left. reflexivity.
  - destruct (send_rcon_command bot c (ext w)) as [r x] eqn:Ec.
    rewrite (rcon_loop_cons _ _ _ _ _ _ _ _ _ Ec).
    assert (Hnext : forall l,
      exists rep after w',
        rcon_loop bot chat_key coe cs (results_log ++ [l])
                  (mkWorld x (trace w ++ turn_effects chat_key c r))
        = (Returned (render rep), w')
        /\ (rep = Completed (results_log ++ after)
            \/ exists command detail,
                 rep = Stopped command detail (results_log ++ after))).
    { intros l. destruct (IH (results_log ++ [l])
                            (mkWorld x (trace w ++ turn_effects chat_key c r)))
        as (rep & after & w' & E & Hrep).
      exists rep, (l :: after), w'. split; [exact E|].
      rewrite <- app_assoc in Hrep. exact Hrep. }
    destruct (status_of r); [apply Hnext | ..];
      (destruct coe; [apply Hnext|]);
      (exists (Stopped c (detail_of r) results_log), [];
       eexists; rewrite app_nil_r; split; [reflexivity | right; eauto]).
Qed.

(** C9.  In a batch, a command that the loop reaches and whose response is
    blank (or is no string) is a success, and its line in the report that
    [execute_rcon_commands] returns, right after the lines of the commands
    before it, holds the placeholder, which is not empty. *)
Theorem blank_success_is_reported_as_no_output
    chat_key pre command post coe w bot rs x1 response x2 :
  PyStr.startswith chat_key "minecraft-" = true ->
  Forall non_blank (pre ++ command :: post) ->
  get_bot chat_key (ext w) = Some bot ->
  serve bot pre (ext w) = (rs, x1) ->
  coe = true \/ Forall succeeded rs ->
  send_rcon_command bot command x1 = (inr response, x2) ->
  response = None \/ (exists s, response = Some s /\ PyStr.strip s = "") ->
  let line := "Command '" +:+ command +:+ "': " +:+ "指令已成功执行，无返回内容" in
  classify response = Success
  /\ "指令已成功执行，无返回内容" <> ""
  /\ exists rep after w',
       execute_rcon_commands chat_key (pre ++ command :: post) coe w
       = (Returned (render rep), w')
       /\ (rep = Completed (zip_with (report_line coe) pre rs ++ line :: after)
           \/ exists failing detail,
                rep = Stopped failing detail
                        (zip_with (report_line coe) pre rs ++ line :: after)).
Proof.
  intros Hkey Hcmds Hbot E Hgo Ec Hblank line.
  assert (Hmsg : response_msg_of response = "").
  { destruct Hblank as [->|(s & -> & Hs)]; [reflexivity | exact Hs]. }
  assert (Hs : classify response = Success).
  { unfold classify. rewrite Hmsg. reflexivity. }
  split; [exact Hs|]. split; [discriminate|].
  rewrite (execute_rcon_commands_live _ _ _ _ bot Hkey Hcmds) by
    first [assumption | destruct pre; discriminate].
  rewrite (rcon_loop_reaches _ _ _ _ _ _ _ _ _ E Hgo).
  rewrite (rcon_loop_cons _ _ _ _ _ _ (mkWorld x1 _) _ _ Ec).
  simpl status_of. rewrite Hs.
  assert (Hline : success_line command (inr response) = line).
  { unfold success_line, line. simpl. rewrite Hmsg. reflexivity. }
  rewrite Hline.
  destruct (rcon_loop_keeps_log bot chat_key coe post
              (([] ++ zip_with (report_line coe) pre rs) ++ [line])
              (mkWorld x2 ((trace w ++ batch_effects chat_key pre rs)
                           ++ turn_effects chat_key command (inr response))))
    as (rep & after & w' & Erun & Hrep).
  exists rep, after, w'. split; [exact Erun|].
  simpl in Hrep. rewrite <- app_assoc in Hrep. exact Hrep.
Qed.

End Executor.

(** ** The rich-text composer *)

Section Compose.
Context `{S : Services}.
Implicit Types (w : World) (d : gmap string json) (items : list json).

Lemma kwarg_flag (v : option json) :
  flag_ok v -> kwarg validate_flag v = mret (flag_of v).
Proof.
  destruct v as [[]|]; simpl; try contradiction; try reflexivity.
  intros _. rewrite validate_flag_bool. reflexivity.
Qed.

Lemma skipped_app tr1 tr2 : skipped (tr1 ++ tr2) = skipped tr1 ++ skipped tr2.
Proof. apply omap_app. Qed.

(** A valid descriptor becomes its component; nothing is reported as
    skipped. *)
Lemma segment_of_valid_descriptor d w :
  valid_descriptor (JObj d) ->
  exists tr,
    _llm_segment_dict_to_component d w =
      (Returned (component_of (JObj d)), mkWorld (ext w) (trace w ++ tr))
    /\ skipped tr = [].
Proof.
  intros (Htext & Hb & Hi & Hu & Hs & Ho).
  unfold _llm_segment_dict_to_component.
  rewrite !kwarg_flag by assumption.
  assert (Ht : kwarg validate_text
                 (Some (default (JStr "") (d !! "text")))
               = mret (Some (descriptor_text (JObj d)))).
  { simpl. destruct (d !! "text") as [[]|]; simpl; try contradiction;
      rewrite validate_text_str; reflexivity. }
  rewrite Ht. unfold component_of.
  destruct (d !! "color") as [v|]; simpl.
  - destruct (Color_of_json v); run.
    + exists []. rewrite app_nil_r. destruct w; split; reflexivity.
    + exists [Log (warn_invalid_color v)]. split; reflexivity.
  - run. exists []. rewrite app_nil_r. destruct w; split; reflexivity.
Qed.

(** Whatever the descriptor, the conversion returns a component or raises
    the validation error of the constructor. *)
Lemma segment_of_any_descriptor d w :
  (exists c w', _llm_segment_dict_to_component d w = (Returned c, w'))
  \/ (exists msg w', _llm_segment_dict_to_component d w
                     = (Raised (ValidationError msg), w')).
Proof.
  unfold _llm_segment_dict_to_component.
  assert (Hk : forall A (validate : json -> string + A) v w0,
             (exists a, kwarg validate v w0 = (Returned a, w0))
             \/ (exists msg, kwarg validate v w0 = (Raised (ValidationError msg), w0))).
  { intros A validate v w0. unfold kwarg.
    destruct v as [v|]; [|left; eexists; reflexivity].
    destruct v; try (left; eexists; reflexivity);
      (destruct (validate _); [right|left]; eexists; reflexivity). }
  destruct (d !! "color") as [v|]; [destruct (Color_of_json v)|];
    unfold mbind, M_bind, mret, M_ret, logger, emit; cbn beta iota;
    repeat (match goal with
            | |- context [kwarg ?val ?v ?w0] =>
                destruct (Hk _ val v w0) as [[? ->]|[? ->]];
                [cbn beta iota|right; eauto]
            end);
    left; eauto.
Qed.

(** The loop over elements that are valid descriptors or no objects. *)
Lemma parse_segments_valid items acc w :
  Forall (fun v => is_dict v = true -> valid_descriptor v) items ->
  exists tr,
    parse_segments items acc w =
      (Returned (acc ++ map component_of (dicts items)),
       mkWorld (ext w) (trace w ++ tr))
    /\ skipped tr = others items.
Proof.
  intros Hall. revert acc w.
  induction Hall as [|v items Hv _ IH]; intros acc w.
  - exists []. simpl. rewrite !app_nil_r. destruct w. split; reflexivity.
  - destruct (is_dict v) eqn:Ed.
    + destruct v as [| | | | |d]; try discriminate.
      destruct (segment_of_valid_descriptor d w (Hv eq_refl)) as (tr1 & E1 & Hs1).
      destruct (IH (acc ++ [component_of (JObj d)])
                   (mkWorld (ext w) (trace w ++ tr1))) as (tr2 & E2 & Hs2).
      exists (tr1 ++ tr2). split.
      * cbn [parse_segments]. unfold mbind at 1, M_bind at 1. rewrite E1, E2.
        unfold dicts. simpl. rewrite <- !app_assoc. reflexivity.
      * rewrite skipped_app, Hs1, Hs2. unfold others. simpl. reflexivity.
    + destruct (IH acc (mkWorld (ext w) (trace w ++ [Log (warn_not_a_dict v)])))
        as (tr2 & E2 & Hs2).
      exists (Log (warn_not_a_dict v) :: tr2). split.
      * unfold dicts. simpl. rewrite Ed. fold (dicts items).
        destruct v; try discriminate; cbn [parse_segments]; run;
          simpl in E2; rewrite E2; rewrite <- app_assoc; reflexivity.
      * unfold others. simpl. rewrite Ed. simpl. f_equal. exact Hs2.
Qed.

(** The loop over any elements: as many components as objects, or the
    validation error of an object. *)
Lemma parse_segments_outcome items acc w :
  match fst (parse_segments items acc w) with
  | Returned comps => length comps = length acc + length (dicts items)
  | Raised e => (exists msg, e = ValidationError msg) /\ dicts items <> []
  end.
Proof.
  revert acc w. induction items as [|v items IH]; intros acc w.
  - simpl. lia.
  - destruct (is_dict v) eqn:Ed.
    + destruct v as [| | | | |d]; try discriminate.
      cbn [parse_segments]. unfold mbind at 1, M_bind at 1.
      destruct (segment_of_any_descriptor d w) as [(c & w' & ->)|(msg & w' & ->)].
      * specialize (IH (acc ++ [c]) w').
        destruct (fst (parse_segments items (acc ++ [c]) w')).
        -- rewrite IH, length_app. unfold dicts. simpl. lia.
        -- split; [apply IH | discriminate].
      * simpl. split; [eauto | discriminate].
    + assert (E : parse_segments (v :: items) acc w =
                  parse_segments items acc
                    (mkWorld (ext w) (trace w ++ [Log (warn_not_a_dict v)]))).
      { destruct v; try discriminate; reflexivity. }
      rewrite E.
      specialize (IH acc (mkWorld (ext w) (trace w ++ [Log (warn_not_a_dict v)]))).
      unfold dicts in *. simpl. rewrite Ed. exact IH.
Qed.

Lemma dicts_nil items :
  dicts items = [] <-> Forall (fun v => is_dict v = false) items.
Proof.
  unfold dicts. induction items as [|v items IH]; simpl.
  - split; constructor.
  - destruct (is_dict v) eqn:E.
    + split; [discriminate|]. intros Hf. apply Forall_cons in Hf as [? _]. congruence.
    + rewrite IH. split; [constructor; assumption|].
      intros Hf. apply Forall_cons in Hf as [_ ?]. assumption.
Qed.

Lemma dicts_of_valid items : Forall valid_descriptor items -> dicts items = items.
Proof.
  unfold dicts. induction 1 as [|v items Hv _ IH]; [reflexivity|].
  destruct v; try contradiction. simpl. f_equal. exact IH.
Qed.

Lemma parse_and_validate_array json_str items w :
  json_loads json_str = inr (JArr items) ->
  _parse_and_validate_components json_str w =
    match parse_segments items [] w with
    | (Returned [], w') => (Raised no_valid_segment, w')
    | (Returned comps, w') => (Returned comps, w')
    | (Raised e, w') => (Raised e, w')
    end.
Proof.
  intros E. unfold _parse_and_validate_components. rewrite E. run.
  destruct (parse_segments items [] w) as [[[|c comps]|e] w']; reflexivity.
Qed.

Lemma parse_and_validate_valid json_str items w :
  json_loads json_str = inr (JArr items) ->
  Forall (fun v => is_dict v = true -> valid_descriptor v) items ->
  exists w',
    _parse_and_validate_components json_str w =
      (match dicts items with
       | [] => Raised no_valid_segment
       | _ => Returned (map component_of (dicts items))
       end, w')
    /\ ext w' = ext w
    /\ skipped (trace w') = skipped (trace w) ++ others items.
Proof.
  intros E Hall. rewrite (parse_and_validate_array _ _ _ E).
  destruct (parse_segments_valid items [] w Hall) as (tr & -> & Hs).
  eexists. split; [|split].
  - simpl. destruct (dicts items); reflexivity.
  - reflexivity.
  - simpl. rewrite skipped_app, Hs. reflexivity.
Qed.

Lemma plain_text_of_components items :
  Forall valid_descriptor items ->
  plain_text_content (map component_of items)
  = PyStr.join "" (map descriptor_text items).
Proof.
  unfold plain_text_content. induction 1 as [|v items Hv _ IH]; [reflexivity|].
  destruct v as [| | | | |d]; try contradiction.
  cbn [map]. rewrite join_empty_cons. unfold plain_text_parts in *.
  cbn [omap list_omap component_of Component.text].
  destruct (descriptor_text (JObj d)) eqn:Et; cbn [PyStr.truthy].
  - rewrite IH. reflexivity.
  - cbn [mbind option_bind]. rewrite join_empty_cons, IH. reflexivity.
Qed.

(** C5.  Parsing fails for want of a valid segment exactly when no element
    of the list is an object (an empty list among them).  An element that
    is not an object is skipped with a warning and left out of the result;
    it does not fail the call. *)
Theorem empty_result_iff_no_object json_str items w :
  json_loads json_str = inr (JArr items) ->
  (fst (_parse_and_validate_components json_str w)
     = Raised (ValueError "没有可发送的有效富文本段。")
   <-> Forall (fun v => is_dict v = false) items)
  /\ (Forall (fun v => is_dict v = true -> valid_descriptor v) items ->
      exists w',
        _parse_and_validate_components json_str w =
          (match dicts items with
           | [] => Raised (ValueError "没有可发送的有效富文本段。")
           | _ => Returned (map component_of (dicts items))
           end, w')
        /\ skipped (trace w') = skipped (trace w) ++ others items).
Proof.
  intros E. split.
  - rewrite (parse_and_validate_array _ _ _ E), <- dicts_nil.
    assert (Ho := parse_segments_outcome items [] w).
    destruct (parse_segments items [] w) as [[[|c comps]|e] w']; simpl in *.
    + split; [intros _|reflexivity].
      destruct (dicts items); [reflexivity | discriminate].
    + split; [discriminate|]. intros Hd. rewrite Hd in Ho. discriminate.
    + destruct Ho as [[msg ->] Hd]. split; [discriminate | contradiction].
  - intros Hall.
    destruct (parse_and_validate_valid _ _ w E Hall) as (w' & Hrun & _ & Hs).
    exists w'. split; assumption.
Qed.

(** C6.  For a list of valid descriptors, the components come in the order
    of the descriptors, each with the text of its descriptor, and the plain
    text is the concatenation of the texts in that order. *)
Theorem plain_text_is_concatenation json_str items w :
  json_loads json_str = inr (JArr items) ->
  Forall valid_descriptor items -> items <> [] ->
  exists components w',
    _parse_and_validate_components json_str w = (Returned components, w')
    /\ components = map component_of items
    /\ map Component.text components
       = map (fun v => Some (descriptor_text v)) items
    /\ plain_text_content components = PyStr.join "" (map descriptor_text items).
Proof.
  intros E Hall Hne.
  assert (Hall' : Forall (fun v => is_dict v = true -> valid_descriptor v) items).
  { eapply Forall_impl; [exact Hall | auto]. }
  destruct (parse_and_validate_valid _ _ w E Hall') as (w' & Hrun & _).
  rewrite (dicts_of_valid _ Hall) in Hrun.
  exists (map component_of items), w'. split; [|split; [|split]].
  - rewrite Hrun. destruct items; [contradiction | reflexivity].
  - reflexivity.
  - rewrite <- list_fmap_compose. apply Forall_fmap_ext_1.
    eapply Forall_impl; [exact Hall|]. intros [] Hv; try contradiction. reflexivity.
  - apply plain_text_of_components. assumption.
Qed.

(** ** The order of the checks in [send_rich_text] *)

(** C10.  With a channel key of the right form and a JSON argument that is
    not blank, a missing connection raises [ConnectionError] whatever the
    JSON argument holds: the parser is not consulted and nothing is logged.
    Only the two checks of the arguments come before the lookup. *)
Theorem connection_lookup_precedes_parsing chat_key rich_text_json w :
  (PyStr.startswith chat_key "minecraft-" = true ->
   PyStr.truthy (PyStr.strip rich_text_json) = true ->
   get_bot chat_key (ext w) = None ->
   send_rich_text chat_key rich_text_json w =
     (Raised (ConnectionError ("未能找到或连接到 Minecraft 服务器: " +:+ chat_key)), w))
  /\ (PyStr.startswith chat_key "minecraft-" = false ->
      send_rich_text chat_key rich_text_json w =
        (Raised (ValueError "chat_key 无效，必须是 'minecraft-servername' 格式。"), w))
  /\ (PyStr.startswith chat_key "minecraft-" = true ->
      PyStr.truthy (PyStr.strip rich_text_json) = false ->
      send_rich_text chat_key rich_text_json w =
        (Raised (ValueError "富文本 JSON 字符串不能为空。"), w)).
Proof.
  unfold send_rich_text. split; [|split].
  - intros -> -> Hbot. run. rewrite Hbot. reflexivity.
  - intros ->. reflexivity.
  - intros -> ->. reflexivity.
Qed.

(** With a live connection the same call reaches the parser: a document
    that does not parse raises the [ValueError] of the parser. *)
Lemma malformed_json_on_live_connection chat_key rich_text_json w bot e :
  PyStr.startswith chat_key "minecraft-" = true ->
  PyStr.truthy (PyStr.strip rich_text_json) = true ->
  get_bot chat_key (ext w) = Some bot ->
  json_loads rich_text_json = inl (JSONDecodeError e) ->
  fst (send_rich_text chat_key rich_text_json w)
  = Raised (ValueError ("富文本 JSON 格式错误: " +:+ e)).
Proof.
  intros Hkey Hjson Hbot He. unfold send_rich_text.
  rewrite Hkey, Hjson. simpl. unfold _parse_and_validate_components.
  run. rewrite Hbot, He. reflexivity.
Qed.

(** X10.  When every collaborator answers, a list of valid descriptors is
    pushed as the concatenation of its texts and sent as its components, in
    order, behind the speaker label. *)
Lemma send_rich_text_delivers chat_key rich_text_json w bot items
    channel x1 preset_name x2 x3 x4 :
  let components := map component_of items in
  let plain := PyStr.join "" (map descriptor_text items) in
  let root :=
    MessageSegment.text ""
      (Component.mk (Some ("<" +:+ preset_name +:+ ">")) (Some green)
                    None None None None None :: components) in
  PyStr.startswith chat_key "minecraft-" = true ->
  PyStr.truthy (PyStr.strip rich_text_json) = true ->
  get_bot chat_key (ext w) = Some bot ->
  json_loads rich_text_json = inr (JArr items) ->
  Forall valid_descriptor items -> items <> [] ->
  get_channel chat_key (ext w) = (inr channel, x1) ->
  get_preset_name channel x1 = (inr preset_name, x2) ->
  push_bot_message chat_key plain channel x2 = (inr tt, x3) ->
  send_msg bot root x3 = (inr tt, x4) ->
  exists tr,
    send_rich_text chat_key rich_text_json w =
      (Returned tt,
       mkWorld x4 (trace w ++ tr ++ [PushBotMessage chat_key plain; SendMsg root;
                                     Log (info_rich_text_sent chat_key)])).
Proof.
  cbv zeta. intros Hkey Hjson Hbot Hloads Hall Hne Hch Hpre Hpush Hsend.
  assert (Hall' : Forall (fun v => is_dict v = true -> valid_descriptor v) items).
  { eapply Forall_impl; [exact Hall | auto]. }
  assert (Hcomps : forall (A : Type) (a : A) (f : list Component.t -> A),
             match map component_of items with [] => a | _ => f (map component_of items) end
             = f (map component_of items)).
  { intros A a f. destruct items; [contradiction | reflexivity]. }
  unfold send_rich_text. rewrite Hkey, Hjson. simpl.
  unfold mbind at 1, M_bind at 1, read at 1. rewrite Hbot.
  unfold try_except. unfold mbind at 1, M_bind at 1.
  rewrite (parse_and_validate_array _ _ _ Hloads).
  destruct (parse_segments_valid items [] w Hall') as (tr & -> & _).
  rewrite (dicts_of_valid _ Hall). simpl app.
  rewrite (Hcomps _ _ (fun comps => (Returned comps, _))).
  rewrite (plain_text_of_components _ Hall).
  run. rewrite Hch. simpl. rewrite Hpre. simpl. rewrite Hpush. simpl.
  rewrite Hsend. simpl.
  exists tr. rewrite <- !app_assoc. reflexivity.
Qed.

End Compose.

(** ** More on the batch executor *)

Section ExecutorMore.
Context `{S : Services}.
Implicit Types (bot : Bot) (w : World) (x : Ext) (r : reply) (rs : list reply).

Lemma append_assoc (s t u : string) : (s +:+ t) +:+ u = s +:+ t +:+ u.
Proof.
  induction s as [|a s IH]; [reflexivity|]. rewrite !app_cons. congruence.
Qed.

Lemma join_app (sep : string) (l1 l2 : list string) :
  l1 <> [] -> l2 <> [] ->
  PyStr.join sep (l1 ++ l2) = PyStr.join sep l1 +:+ sep +:+ PyStr.join sep l2.
Proof.
  unfold PyStr.join. intros H1 H2. induction l1 as [|a l1 IH]; [contradiction|].
  destruct l1 as [|b l1].
  - destruct l2; [contradiction | reflexivity].
  - change (String.concat sep ((a :: b :: l1) ++ l2))
      with (a +:+ sep +:+ String.concat sep ((b :: l1) ++ l2)).
    rewrite IH by discriminate.
    change (String.concat sep (a :: b :: l1))
      with (a +:+ sep +:+ String.concat sep (b :: l1)).
    rewrite !append_assoc. reflexivity.
Qed.

Lemma batch_effects_app chat_key c1 c2 rs1 rs2 :
  length rs1 = length c1 ->
  batch_effects chat_key (c1 ++ c2) (rs1 ++ rs2)
  = batch_effects chat_key c1 rs1 ++ batch_effects chat_key c2 rs2.
Proof.
  intros Hlen. unfold batch_effects.
  rewrite zip_with_app by congruence. apply concat_app.
Qed.




(** X2.  A batch that fails a check of its arguments raises the
    [ValueError] of that check and leaves the world as it was: with a blank
    command anywhere in the list, no command of the list is sent. *)
Theorem invalid_batch_sends_nothing chat_key commands coe w :
  (PyStr.startswith chat_key "minecraft-" = false ->
   execute_rcon_commands chat_key commands coe w
   = (Raised (ValueError "chat_key 无效，必须是 'minecraft-servername' 格式。"), w))
  /\ (PyStr.startswith chat_key "minecraft-" = true ->
      Exists (fun cmd => PyStr.strip cmd = "") commands ->
      execute_rcon_commands chat_key commands coe w
      = (Raised (ValueError "RCON 命令列表无效，必须是非空字符串的列表。"), w))
  /\ (PyStr.startswith chat_key "minecraft-" = true ->
      commands = [] ->
      execute_rcon_commands chat_key commands coe w
      = (Raised (ValueError "RCON 命令列表不能为空。"), w)).
Proof.
  unfold execute_rcon_commands. split; [|split].
  - intros ->. reflexivity.
  - intros -> Hex.
    assert (Hall : forallb (fun cmd => PyStr.truthy (PyStr.strip cmd)) commands
                   = false).
    { apply not_true_is_false. intros Hall.
      apply Exists_exists in Hex as (c & Hin & Hc).
      rewrite forallb_forall in Hall. apply list_elem_of_In in Hin.
      specialize (Hall c Hin). rewrite Hc in Hall. discriminate. }
    rewrite Hall. reflexivity.
  - intros -> ->. reflexivity.
Qed.

(** X3.  Under continue-on-error, running two batches in one call is
    running them one after the other: the report is the two reports joined
    by a line feed, and the world is the one the second batch leaves. *)
Theorem continued_batches_compose
    chat_key first second w bot (out1 out2 : string) w1 w2 :
  PyStr.startswith chat_key "minecraft-" = true ->
  Forall non_blank first -> first <> [] ->
  Forall non_blank second -> second <> [] ->
  get_bot chat_key (ext w) = Some bot ->
  execute_rcon_commands chat_key first true w = (Returned out1, w1) ->
  get_bot chat_key (ext w1) = Some bot ->
  execute_rcon_commands chat_key second true w1 = (Returned out2, w2) ->
  execute_rcon_commands chat_key (first ++ second) true w
  = (Returned (out1 +:+ PyStr.nl +:+ out2), w2).
Proof.
  intros Hkey Hf Hfne Hs Hsne Hbot E1 Hbot1 E2.
  rewrite (execute_rcon_commands_live _ _ _ _ bot Hkey Hf Hfne Hbot) in E1.
  rewrite (execute_rcon_commands_live _ _ _ _ bot Hkey Hs Hsne Hbot1) in E2.
  rewrite (execute_rcon_commands_live _ _ _ _ bot Hkey) by
    first [ assumption
          | apply Forall_app; split; assumption
          | destruct first; [contradiction | discriminate] ].
  destruct (serve bot first (ext w)) as [rs1 x1] eqn:S1.
  rewrite (rcon_loop_continue _ _ _ _ _ _ _ S1) in E1.
  injection E1 as <- <-.
  destruct (serve bot second x1) as [rs2 x2] eqn:S2.
  rewrite (rcon_loop_continue _ _ _ _ (mkWorld x1 _) _ _ S2) in E2.
  injection E2 as <- <-.
  assert (L1 := serve_length _ _ _ _ _ S1).
  assert (L2 := serve_length _ _ _ _ _ S2).
  rewrite (rcon_loop_continue _ _ _ _ _ _ _ (serve_app _ _ _ _ _ _ _ _ S1 S2)).
  simpl. rewrite zip_with_app, batch_effects_app, app_assoc by congruence.
  rewrite join_app; [reflexivity | ..].
  - destruct first, rs1; try discriminate; contradiction.
  - destruct second, rs2; try discriminate; contradiction.
Qed.

(** X4.  On a live connection the trace grows by a round trip and one log
    entry for each command attempted, in order; the commands attempted are
    a prefix of the batch that holds at least its first command, and the
    whole batch under continue-on-error. *)
Theorem every_round_trip_is_logged chat_key commands coe w bot result w' :
  PyStr.startswith chat_key "minecraft-" = true ->
  Forall non_blank commands -> commands <> [] ->
  get_bot chat_key (ext w) = Some bot ->
  execute_rcon_commands chat_key commands coe w = (result, w') ->
  exists attempted rs,
    serve bot attempted (ext w) = (rs, ext w')
    /\ trace w' = trace w ++ batch_effects chat_key attempted rs
    /\ attempted <> [] /\ attempted `prefix_of` commands
    /\ (coe = true -> attempted = commands)
    /\ length (logged (batch_effects chat_key attempted rs)) = length attempted.
Proof.
  intros Hkey Hcmds Hne Hbot.
  rewrite (execute_rcon_commands_live _ _ _ _ bot Hkey Hcmds Hne Hbot).
  assert (Hlogged : forall cs rs, length rs = length cs ->
            length (logged (batch_effects chat_key cs rs)) = length cs).
  { unfold batch_effects. induction cs as [|c cs IH]; intros [|r rs] Hl;
      try discriminate; [reflexivity|]. simpl. f_equal. apply IH.
    simpl in Hl. congruence. }
  destruct (serve bot commands (ext w)) as [rs x1] eqn:E.
  assert (Hlen := serve_length _ _ _ _ _ E).
  assert (Hdone : coe = true \/ Forall succeeded rs ->
    rcon_loop bot chat_key coe commands [] w = (result, w') ->
    exists attempted rs0,
      serve bot attempted (ext w) = (rs0, ext w')
      /\ trace w' = trace w ++ batch_effects chat_key attempted rs0
      /\ attempted <> [] /\ attempted `prefix_of` commands
      /\ (coe = true -> attempted = commands)
      /\ length (logged (batch_effects chat_key attempted rs0)) = length attempted).
  { intros Hc Hrun. exists commands, rs.
    assert (Hw : w' = mkWorld x1 (trace w ++ batch_effects chat_key commands rs)).
    { destruct Hc as [-> | Hok].
      - rewrite (rcon_loop_continue _ _ _ [] _ _ _ E) in Hrun. congruence.
      - rewrite (rcon_loop_all_succeed _ _ _ _ [] _ _ _ E Hok) in Hrun. congruence. }
    subst w'. simpl. repeat split; auto. }
  destruct coe; [apply Hdone; left; reflexivity|].
  destruct (first_failure _ _ _ _ _ E)
    as [Hok|(pre & c & post & rs1 & y1 & r & y2 & -> & E1 & Hok & Ec & Hr)];
    [apply Hdone; right; assumption|].
  assert (Hlen1 := serve_length _ _ _ _ _ E1).
  assert (Hl : length (rs1 ++ [r]) = length (pre ++ [c])).
  { rewrite !length_app. simpl. congruence. }
  rewrite (rcon_loop_fail_fast _ _ _ _ _ _ _ _ _ _ _ E1 Hok Ec Hr).
  intros [= <- <-].
  exists (pre ++ [c]), (rs1 ++ [r]). simpl. split; [|split; [|split; [|split; [|split]]]].
  - apply (serve_app _ _ _ _ _ _ _ _ E1). simpl. rewrite Ec. reflexivity.
  - rewrite batch_effects_app by assumption. reflexivity.
  - destruct pre; discriminate.
  - exists post. rewrite <- app_assoc. reflexivity.
  - discriminate.
  - apply Hlogged. assumption.
Qed.
End ExecutorMore.

Section Lines.
Context `{S : Services}.
Implicit Types (bot : Bot) (w : World) (x : Ext) (r : reply) (rs : list reply).

Lemma result_line_feeds command r :
  line_feeds command = 0 -> line_feeds (detail_of r) = 0 ->
  line_feeds (result_line command r) = 0.
Proof.
  intros Hc Hd. unfold result_line, success_line, error_line.
  destruct (status_of r); [destruct (PyStr.truthy (detail_of r))|..];
    rewrite !line_feeds_append, ?Hc, ?Hd; reflexivity.
Qed.

(** X5.  Under continue-on-error, when no command and no response holds a
    line feed, the report has as many physical lines as the batch has
    commands. *)
Theorem continued_report_has_a_line_per_command
    chat_key commands w bot rs x1 :
  PyStr.startswith chat_key "minecraft-" = true ->
  Forall non_blank commands -> commands <> [] ->
  get_bot chat_key (ext w) = Some bot ->
  serve bot commands (ext w) = (rs, x1) ->
  Forall (fun command => line_feeds command = 0) commands ->
  Forall (fun r => line_feeds (detail_of r) = 0) rs ->
  exists result w',
    execute_rcon_commands chat_key commands true w = (Returned result, w')
    /\ line_feeds result + 1 = length commands.
Proof.
  intros Hkey Hcmds Hne Hbot E Hc Hr.
  rewrite (execute_rcon_commands_live _ _ _ _ bot Hkey Hcmds Hne Hbot).
  rewrite (rcon_loop_continue _ _ _ _ _ _ _ E). eexists _, _.
  split; [reflexivity|]. simpl app.
  assert (Hlen := serve_length _ _ _ _ _ E).
  rewrite line_feeds_join.
  - rewrite length_zip_with_l_eq by congruence. destruct commands; [contradiction|].
    simpl. lia.
  - clear - Hc Hr. revert rs Hr. induction Hc as [|c cs Hc0 _ IH]; intros [|r rs] Hr;
      try constructor.
    + apply Forall_cons in Hr as [Hr0 _]. apply result_line_feeds; assumption.
    + apply Forall_cons in Hr as [_ Hr]. apply IH. assumption.
Qed.
End Lines.

(** ** More on rich text *)

Section RichTextMore.
Context `{S : Services}.
Implicit Types (w : World) (d : gmap string json) (items : list json).

Lemma deliveries_app tr1 tr2 :
  deliveries (tr1 ++ tr2) = deliveries tr1 ++ deliveries tr2.
Proof. apply List.filter_app. Qed.

Lemma kwarg_quiet {A} (validate : json -> string + A) v w :
  (exists a, kwarg validate v w = (Returned a, w))
  \/ (exists msg, kwarg validate v w = (Raised (ValidationError msg), w)).
Proof.
  unfold kwarg. destruct v as [v|]; [|left; eexists; reflexivity].
  destruct v; try (left; eexists; reflexivity);
    (destruct (validate _); [right|left]; eexists; reflexivity).
Qed.

(** The conversion of a descriptor only logs. *)
Lemma segment_only_logs d w :
  exists o tr,
    _llm_segment_dict_to_component d w = (o, mkWorld (ext w) (trace w ++ tr))
    /\ deliveries tr = [].
Proof.
  unfold _llm_segment_dict_to_component.
  assert (Hw : w = mkWorld (ext w) (trace w ++ [])).
  { rewrite app_nil_r. destruct w; reflexivity. }
  destruct (d !! "color") as [v|]; [destruct (Color_of_json v)|];
    unfold mbind, M_bind, mret, M_ret, logger, emit; cbn beta iota;
    repeat (match goal with
            | |- context [kwarg ?val ?v ?w0] =>
                destruct (kwarg_quiet val v w0) as [[? ->]|[? ->]];
                [cbn beta iota|]
            end);
    first [ eexists _, [Log _]; split; reflexivity
          | eexists _, []; split; [rewrite <- Hw; reflexivity | reflexivity] ].
Qed.

Lemma parse_segments_only_logs items acc w :
  exists o tr,
    parse_segments items acc w = (o, mkWorld (ext w) (trace w ++ tr))
    /\ deliveries tr = [].
Proof.
  revert acc w. induction items as [|v items IH]; intros acc w.
  - exists (Returned acc), []. simpl. rewrite app_nil_r. destruct w. auto.
  - assert (Hskip : is_dict v = false ->
              parse_segments (v :: items) acc w =
              parse_segments items acc
                (mkWorld (ext w) (trace w ++ [Log (warn_not_a_dict v)]))).
    { destruct v; try discriminate; reflexivity. }
    destruct (is_dict v) eqn:Ed.
    + destruct v as [| | | | |d]; try discriminate.
      cbn [parse_segments]. unfold mbind at 1, M_bind at 1.
      destruct (segment_only_logs d w) as ([c|e] & tr1 & -> & Hd1).
      * destruct (IH (acc ++ [c]) (mkWorld (ext w) (trace w ++ tr1)))
          as (o & tr2 & -> & Hd2).
        exists o, (tr1 ++ tr2). simpl. rewrite <- app_assoc, deliveries_app, Hd1, Hd2.
        auto.
      * exists (Raised e), tr1. auto.
    + rewrite (Hskip eq_refl).
      destruct (IH acc (mkWorld (ext w) (trace w ++ [Log (warn_not_a_dict v)])))
        as (o & tr2 & -> & Hd2).
      exists o, (Log (warn_not_a_dict v) :: tr2). simpl.
      rewrite <- app_assoc. auto.
Qed.

(** Parsing only logs, and does not return an empty list. *)
Lemma parse_and_validate_only_logs json_str w :
  exists o tr,
    _parse_and_validate_components json_str w
    = (o, mkWorld (ext w) (trace w ++ tr))
    /\ deliveries tr = []
    /\ match o with
       | Raised _ => True
       | Returned components => components <> []
       end.
Proof.
  unfold _parse_and_validate_components.
  assert (Hw : w = mkWorld (ext w) (trace w ++ [])).
  { rewrite app_nil_r. destruct w; reflexivity. }
  destruct (json_loads json_str) as [[e|e]|v].
  - run. eexists _, [Log _]. split; [reflexivity | split; reflexivity].
  - run. eexists _, []. split; [rewrite <- Hw; reflexivity | split; reflexivity].
  - destruct v as [| | | |items|];
      try (run; eexists _, []; split;
           [rewrite <- Hw; reflexivity | split; reflexivity]).
    unfold mbind at 1, M_bind at 1, mret at 1, M_ret at 1.
    unfold mbind at 1, M_bind at 1.
    destruct (parse_segments_only_logs items [] w) as ([[|c cs]|e] & tr & -> & Hd).
    + exists (Raised no_valid_segment), tr. auto.
    + exists (Returned (c :: cs)), tr. split; [reflexivity|]. split; [assumption|].
      discriminate.
    + exists (Raised e), tr. auto.
Qed.

Ltac step_call :=
  match goal with
  | |- context [get_channel ?k ?x0] =>
      destruct (get_channel k x0) as [[cause|channel] y1]
  | |- context [get_preset_name ?c ?x0] =>
      destruct (get_preset_name c x0) as [[cause|name] y2]
  | |- context [push_bot_message ?k ?p ?c ?x0] =>
      destruct (push_bot_message k p c x0) as [[cause|[]] y3]
  | |- context [send_msg ?b ?m ?x0] =>
      destruct (send_msg b m x0) as [[cause|[]] y4]
  end; simpl.

(** X7.  [send_rich_text] calls the history at most once and the server at
    most once, the server only after the history, both with the same
    components; when it fails before the history is called, or the call to
    the history raises, nothing is sent to the server. *)
Theorem history_is_pushed_before_the_message_is_sent
    chat_key rich_text_json w o w' :
  send_rich_text chat_key rich_text_json w = (o, w') ->
  exists tr,
    trace w' = trace w ++ tr
    /\ ((deliveries tr = [] /\ exists e, o = Raised e)
        \/ (exists components,
              components <> []
              /\ deliveries tr
                 = [PushBotMessage chat_key (plain_text_content components)]
              /\ exists e, o = Raised e)
        \/ (exists components preset_name,
              components <> []
              /\ deliveries tr
                 = [PushBotMessage chat_key (plain_text_content components);
                    SendMsg (MessageSegment.text ""
                               (label preset_name :: components))])).
Proof.
  unfold send_rich_text.
  destruct (PyStr.startswith chat_key "minecraft-"); simpl;
    [|intros [= <- <-]; exists []; rewrite app_nil_r; split;
      [reflexivity | left; eauto]].
  destruct (PyStr.truthy (PyStr.strip rich_text_json)); simpl;
    [|intros [= <- <-]; exists []; rewrite app_nil_r; split;
      [reflexivity | left; eauto]].
  unfold mbind at 1, M_bind at 1, read at 1.
  destruct (get_bot chat_key (ext w)) as [bot|];
    [|intros [= <- <-]; exists []; rewrite app_nil_r; split;
      [reflexivity | left; eauto]].
  unfold try_except. unfold mbind at 1, M_bind at 1.
  destruct (parse_and_validate_only_logs rich_text_json w)
    as ([components|cause] & tr0 & -> & Hd0 & Ho).
  2:{ destruct (is_ValueError cause); run; intros [= <- <-]; eexists;
        rewrite <- app_assoc; (split; [reflexivity|]); left;
        rewrite deliveries_app, Hd0; eauto. }
  run. step_call.
  { destruct (is_ValueError cause); simpl; intros [= <- <-]; eexists;
      rewrite <- app_assoc; (split; [reflexivity|]); left;
      rewrite deliveries_app, Hd0; eauto. }
  step_call.
  { destruct (is_ValueError cause); simpl; intros [= <- <-]; eexists;
      rewrite <- app_assoc; (split; [reflexivity|]); left;
      rewrite deliveries_app, Hd0; eauto. }
  step_call.
  { destruct (is_ValueError cause); simpl; intros [= <- <-]; eexists;
      rewrite <- !app_assoc; (split; [reflexivity|]); right; left;
      exists components; rewrite deliveries_app, Hd0; eauto. }
  step_call.
  { destruct (is_ValueError cause); simpl; intros [= <- <-]; eexists;
      rewrite <- !app_assoc; (split; [reflexivity|]); right; right;
      exists components, name; rewrite deliveries_app, Hd0; eauto. }
  intros [= <- <-]. eexists. rewrite <- !app_assoc. split; [reflexivity|].
  right; right. exists components, name. rewrite deliveries_app, Hd0. eauto.
Qed.


(** X9.  On a live connection, a document that does not parse, a parser
    that raises, and a document that is no list are reported as the
    [ValueError] of the parse step, as the exception of the parser
    ([ValueError] as it is, another one wrapped), and as the [ValueError]
    of the list check; only the log grows. *)
Theorem unusable_document_is_rejected chat_key rich_text_json w bot :
  PyStr.startswith chat_key "minecraft-" = true ->
  PyStr.truthy (PyStr.strip rich_text_json) = true ->
  get_bot chat_key (ext w) = Some bot ->
  (forall e, json_loads rich_text_json = inl (JSONDecodeError e) ->
     let error := ValueError ("富文本 JSON 格式错误: " +:+ e) in
     send_rich_text chat_key rich_text_json w
     = (Raised error,
        mkWorld (ext w)
                (trace w ++ [Log (error_json_parse e); Log (error_rich_text error)])))
  /\ (forall e, json_loads rich_text_json = inl (LoadsRaises e) ->
        send_rich_text chat_key rich_text_json w
        = (Raised (surfaced e),
           mkWorld (ext w) (trace w ++ [Log (surfaced_log chat_key e)])))
  /\ (forall v, json_loads rich_text_json = inr v ->
        (forall items, v <> JArr items) ->
        let error := ValueError "富文本 JSON 解析后必须是一个列表。" in
        send_rich_text chat_key rich_text_json w
        = (Raised error,
           mkWorld (ext w) (trace w ++ [Log (error_rich_text error)]))).
Proof.
  intros Hkey Hjson Hbot. unfold send_rich_text. rewrite Hkey, Hjson. simpl.
  unfold _parse_and_validate_components. split; [|split].
  - intros e He. run. rewrite Hbot, He. simpl. rewrite <- app_assoc. reflexivity.
  - intros e He. run. rewrite Hbot, He. unfold surfaced, surfaced_log.
    destruct (is_ValueError e); reflexivity.
  - intros v Hv Hnl. run. rewrite Hbot, Hv.
    destruct v; try reflexivity. exfalso. eapply Hnl. reflexivity.
Qed.

(** X11.  A valid descriptor is converted without failure: the text is the
    descriptor's, each style flag is set exactly when the descriptor gives
    a boolean for it, the colour is set exactly when the descriptor names a
    colour of the palette, and a colour that is none draws one warning. *)
Theorem unknown_color_is_dropped_with_a_warning d w :
  valid_descriptor (JObj d) ->
  exists component,
    _llm_segment_dict_to_component d w
    = (Returned component, mkWorld (ext w) (trace w ++ color_warning d))
    /\ Component.text component = Some (descriptor_text (JObj d))
    /\ Component.color component = d !! "color" ≫= Color_of_json
    /\ Component.bold component = flag_of (d !! "bold")
    /\ Component.italic component = flag_of (d !! "italic")
    /\ Component.underlined component = flag_of (d !! "underlined")
    /\ Component.strikethrough component = flag_of (d !! "strikethrough")
    /\ Component.obfuscated component = flag_of (d !! "obfuscated").
Proof.
  intros (Htext & Hb & Hi & Hu & Hs & Ho).
  exists (component_of (JObj d)). split; [|repeat split].
  unfold _llm_segment_dict_to_component, color_warning.
  rewrite !kwarg_flag by assumption.
  assert (Ht : kwarg validate_text
                 (Some (default (JStr "") (d !! "text")))
               = mret (Some (descriptor_text (JObj d)))).
  { simpl. destruct (d !! "text") as [[]|]; simpl; try contradiction;
      rewrite validate_text_str; reflexivity. }
  rewrite Ht. unfold component_of.
  destruct (d !! "color") as [v|]; simpl.
  - destruct (Color_of_json v); run; [|reflexivity].
    rewrite app_nil_r. destruct w; reflexivity.
  - run. rewrite app_nil_r. destruct w; reflexivity.
Qed.

(** X12.  A style flag given as null is a style flag that is not given. *)
Theorem null_flag_is_absent_flag d attr w :
  attr ∈ style_attrs ->
  _llm_segment_dict_to_component (<[attr := JNull]> d) w
  = _llm_segment_dict_to_component (delete attr d) w.
Proof.
  intros Hattr. unfold style_attrs in Hattr.
  unfold _llm_segment_dict_to_component.
  repeat (apply elem_of_cons in Hattr as [->|Hattr]);
    [..|apply elem_of_nil in Hattr; contradiction];
    repeat first [ rewrite lookup_insert_eq | rewrite lookup_delete_eq
                 | rewrite lookup_insert_ne by discriminate
                 | rewrite lookup_delete_ne by discriminate ];
    reflexivity.
Qed.

(** X13.  A string is accepted as a colour exactly when its lower case is
    the name of that colour. *)
Theorem colors_are_matched_by_lower_case_name (s : string) (c : Color) :
  Color_of_json (JStr s) = Some c <-> PyStr.lower s = Color_name c.
Proof.
  unfold Color_of_json. generalize (PyStr.lower s) as name. intros name. split.
  - unfold Color_of_name, palette. cbn [find fst snd fmap option_fmap option_map].
    repeat match goal with
           | |- context [String.eqb name ?n] =>
               destruct (String.eqb_spec name n) as [->|_];
               [intros [= <-]; reflexivity|]
           end.
    discriminate.
  - intros ->. destruct c; reflexivity.
Qed.
End RichTextMore.

(** ** More on the message normalizer *)

Section NormalizerMore.

Lemma all_chars_append p (s t : string) :
  all_chars p (s +:+ t) = all_chars p s && all_chars p t.
Proof.
  induction s as [|a s IH]; [reflexivity|]. rewrite app_cons. simpl.
  rewrite IH, andb_assoc. reflexivity.
Qed.

Lemma all_chars_take p (n : nat) (s : string) :
  all_chars p s = true -> all_chars p (PyStr.take n s) = true.
Proof.
  unfold PyStr.take. revert s. induction n as [|n IH]; intros [|a s]; simpl;
    try reflexivity.
  intros H. apply andb_true_iff in H as [Ha Hs]. rewrite Ha. simpl. auto.
Qed.

Lemma hex_digit_is_hex (d : N) : (d < 16)%N -> is_hex (Sha1.hex_digit d) = true.
Proof.
  intros Hd.
  assert (Hcases : In d (map N.of_nat (seq 0 16))).
  { apply in_map_iff. exists (N.to_nat d). split; [lia|]. apply in_seq. lia. }
  cbv [map seq N.of_nat Pos.of_succ_nat Pos.succ] in Hcases.
  repeat (destruct Hcases as [<-|Hcases]; [reflexivity|]). contradiction.
Qed.

Lemma hex_all_hex (n : nat) (x : N) : all_chars is_hex (Sha1.hex n x) = true.
Proof.
  induction n as [|n IH]; [reflexivity|].
  cbn [Sha1.hex all_chars]. rewrite IH, andb_true_r.
  apply hex_digit_is_hex.
  change 15%N with (N.ones 4). rewrite N.land_ones.
  apply N.mod_lt. discriminate.
Qed.

Lemma hexdigest_all_hex (s : string) : all_chars is_hex (Sha1.hexdigest s) = true.
Proof.
  unfold Sha1.hexdigest. cbv zeta. rewrite !all_chars_append, !hex_all_hex.
  reflexivity.
Qed.

(** X14.  The user id of a normalized message is ten lower-case
    hexadecimal digits, and the sender id is the same. *)
Theorem pseudonym_is_ten_hex_digits (event : MessageEvent.t) :
  let '(_, plt_user, plt_msg) := handle_message event in
  String.length (PlatformUser.user_id plt_user) = 10
  /\ all_chars is_hex (PlatformUser.user_id plt_user) = true
  /\ PlatformMessage.sender_id plt_msg = PlatformUser.user_id plt_user.
Proof.
  cbv beta iota zeta delta [handle_message PlatformUser.user_id
                            PlatformMessage.sender_id].
  split; [apply short_player_id_length|]. split; [|reflexivity].
  apply all_chars_take, hexdigest_all_hex.
Qed.

Lemma of_uint_no_underscore (d : Decimal.uint) :
  all_chars no_underscore (NilEmpty.string_of_uint d) = true.
Proof. induction d; simpl; auto. Qed.

Lemma of_int_no_underscore (n : Z) : all_chars no_underscore (PyStr.of_int n) = true.
Proof.
  unfold PyStr.of_int. destruct (Z.to_int n); simpl; apply of_uint_no_underscore.
Qed.

Lemma of_int_inj (n m : Z) : PyStr.of_int n = PyStr.of_int m -> n = m.
Proof.
  unfold PyStr.of_int. intros E. apply DecimalZ.to_int_inj.
  apply (f_equal NilEmpty.int_of_string) in E. rewrite !NilEmpty.isi in E.
  congruence.
Qed.

(** The text after the last underscore is determined. *)
Lemma split_at_last_underscore (a b t u : string) :
  all_chars no_underscore t = true -> all_chars no_underscore u = true ->
  a +:+ "_" +:+ t = b +:+ "_" +:+ u -> a = b /\ t = u.
Proof.
  intros Ht Hu. revert b.
  assert (Hno : forall x y, all_chars no_underscore (x +:+ "_" +:+ y) = false).
  { intros x y. rewrite all_chars_append. apply andb_false_iff. right.
    reflexivity. }
  induction a as [|c a IH]; intros [|c' b] E.
  - change ("" +:+ "_" +:+ t) with (String "_" t) in E.
    change ("" +:+ "_" +:+ u) with (String "_" u) in E.
    injection E as E. auto.
  - change ("" +:+ "_" +:+ t) with (String "_" t) in E.
    rewrite app_cons in E. injection E as _ E.
    rewrite E, Hno in Ht. discriminate.
  - change ("" +:+ "_" +:+ u) with (String "_" u) in E.
    rewrite app_cons in E. injection E as _ E.
    rewrite <- E, Hno in Hu. discriminate.
  - rewrite !app_cons in E. injection E as -> E.
    destruct (IH _ E) as [-> ->]. auto.
Qed.

(** Texts that end with parts of one length. *)
Lemma split_by_length (a b t u : string) :
  String.length t = String.length u -> a +:+ t = b +:+ u -> a = b /\ t = u.
Proof.
  intros Hlen. revert b. induction a as [|c a IH]; intros [|c' b] E.
  - auto.
  - exfalso. change ("" +:+ t) with t in E. rewrite E, app_cons in Hlen.
    simpl in Hlen. rewrite length_append in Hlen. lia.
  - exfalso. change ("" +:+ u) with u in E. rewrite <- E, app_cons in Hlen.
    simpl in Hlen. rewrite length_append in Hlen. lia.
  - rewrite !app_cons in E. injection E as -> E.
    destruct (IH _ E) as [-> ->]. auto.
Qed.

Lemma msg_id_without_id (event : MessageEvent.t) :
  without_id event ->
  msg_id_of event
  = "mc_" +:+ MessageEvent.server_name event +:+ "_"
    +:+ short_player_id (MessageEvent.player_uuid event) +:+ "_"
    +:+ PyStr.of_int (MessageEvent.timestamp event).
Proof.
  unfold without_id, msg_id_of.
  destruct (MessageEvent.message_id event) as [i|]; [|reflexivity].
  intros ->. rewrite andb_false_r. reflexivity.
Qed.

Lemma append_inj_l (s a b : string) : s +:+ a = s +:+ b -> a = b.
Proof.
  induction s as [|c s IH]; [auto|]. rewrite !app_cons. intros [= E]. auto.
Qed.

(** X15.  Two events without a usable id get the same message id only if
    they agree on the server name, the pseudonym of the player and the
    timestamp as an integer: an underscore in a server name cannot mix
    up the parts. *)
Theorem synthesized_ids_tell_events_apart (e1 e2 : MessageEvent.t) :
  without_id e1 -> without_id e2 ->
  PlatformMessage.message_id (snd (handle_message e1))
  = PlatformMessage.message_id (snd (handle_message e2)) ->
  MessageEvent.server_name e1 = MessageEvent.server_name e2
  /\ PlatformUser.user_id (snd (fst (handle_message e1)))
     = PlatformUser.user_id (snd (fst (handle_message e2)))
  /\ MessageEvent.timestamp e1 = MessageEvent.timestamp e2.
Proof.
  intros H1 H2.
  cbv beta iota zeta delta [handle_message PlatformUser.user_id
                            PlatformMessage.message_id fst snd].
  rewrite (msg_id_without_id _ H1), (msg_id_without_id _ H2).
  intros E. apply append_inj_l in E.
  assert (Hshape : forall s u t,
            s +:+ "_" +:+ u +:+ "_" +:+ t = (s +:+ "_" +:+ u) +:+ "_" +:+ t).
  { intros. rewrite !append_assoc. reflexivity. }
  rewrite !Hshape in E.
  apply split_at_last_underscore in E as [E Et];
    [|apply of_int_no_underscore ..].
  apply split_by_length in E as [Es Eu].
  2:{ rewrite !length_append, !short_player_id_length. reflexivity. }
  split; [assumption|]. split; [|apply of_int_inj; assumption].
  apply append_inj_l in Eu. exact Eu.
Qed.
End NormalizerMore.

(** ** The properties at work on the scripted server *)

Section Instances.
Import Demo.

Lemma fail_fast_stops_at_first_failure_witness :
  fst (execute_rcon_commands "minecraft-myserver"
         ["say Hello"; "invalid_command"; "say World"] false start)
  = Returned ("执行命令 'invalid_command' 时出错: "
              +:+ "Unknown or incomplete command, see below for error"
              +:+ PyStr.nl +:+ "先前成功的结果:" +:+ PyStr.nl
              +:+ "Command 'say Hello': Hello")
  /\ round_trips (trace (snd (execute_rcon_commands "minecraft-myserver"
                                ["say Hello"; "invalid_command"; "say World"]
                                false start)))
     = ["say Hello"; "invalid_command"].
Proof.
  destruct (fail_fast_stops_at_first_failure (S := services)
              "minecraft-myserver" ["say Hello"] "invalid_command" ["say World"]
              start "myserver" [inr (Some "Hello")] ["say Hello"]
              (inr (Some "Unknown or incomplete command, see below for error"))
              ["say Hello"; "invalid_command"])
    as (w' & E & _ & Htrips & _).
  - reflexivity.
  - repeat constructor.
  - reflexivity.
  - reflexivity.
  - repeat constructor.
  - reflexivity.
  - left. reflexivity.
  - simpl app in E. rewrite E. split; [reflexivity | exact Htrips].
Defined.

Lemma result_lines_match_attempts_witness :
  fst (execute_rcon_commands "minecraft-myserver"
         ["say Hello"; "invalid_command"; "say World"] true start)
  = Returned ("Command 'say Hello': Hello" +:+ PyStr.nl
              +:+ "Command 'invalid_command': Error - "
              +:+ "Unknown or incomplete command, see below for error"
              +:+ PyStr.nl +:+ "Command 'say World': World").
Proof.
  destruct (result_lines_match_attempts (S := services)
              "minecraft-myserver" ["say Hello"; "invalid_command"; "say World"]
              true start "myserver")
    as (rep & attempted & rs & w' & E & _ & Hserve & _ & _ & _ & Hdone).
  - reflexivity.
  - repeat constructor.
  - discriminate.
  - reflexivity.
  - destruct (Hdone (or_introl eq_refl)) as (-> & -> & _).
    rewrite E. vm_compute in Hserve. injection Hserve as <- _. reflexivity.
Defined.

Lemma no_connection_is_reported_witness :
  execute_rcon_commands "minecraft-other" ["say Hello"] false start
  = (Returned "错误：未能找到或连接到 Minecraft 服务器: minecraft-other", start).
Proof.
  apply (no_connection_is_reported (S := services)
           "minecraft-other" ["say Hello"] false start).
  - reflexivity.
  - repeat constructor.
  - discriminate.
  - reflexivity.
Defined.

(** C4, as the claim has it, fails: the channel key has no live
    connection, and the empty batch raises instead of returning a report. *)
Lemma empty_batch_raises_before_lookup :
  get_bot "minecraft-other" (ext start) = None
  /\ execute_rcon_commands "minecraft-other" [] false start
     = (Raised (ValueError "RCON 命令列表不能为空。"), start)
  /\ ~ (exists result,
          fst (execute_rcon_commands "minecraft-other" [] false start)
          = Returned result).
Proof.
  split; [reflexivity|]. split; [reflexivity|].
  intros [result E]. vm_compute in E. discriminate.
Qed.

(** So does a channel key of the wrong form. *)
Lemma malformed_key_raises_before_lookup :
  get_bot "lobby" (ext start) = None
  /\ execute_rcon_commands "lobby" ["say Hello"] false start
     = (Raised (ValueError "chat_key 无效，必须是 'minecraft-servername' 格式。"), start).
Proof. split; reflexivity. Qed.

Lemma blank_success_is_reported_as_no_output_witness :
  (exists rep after w',
     execute_rcon_commands "minecraft-myserver"
       ["say Hello"; "save-all"; "ping"] false start
     = (Returned (render rep), w')
     /\ (rep = Completed (["Command 'say Hello': Hello"]
                          ++ "Command 'save-all': 指令已成功执行，无返回内容" :: after)
         \/ exists failing detail,
              rep = Stopped failing detail
                      (["Command 'say Hello': Hello"]
                       ++ "Command 'save-all': 指令已成功执行，无返回内容" :: after)))
  /\ (exists rep after w',
        execute_rcon_commands "minecraft-myserver"
          ["say Hello"; "save-all"; "ping"] false start
        = (Returned (render rep), w')
        /\ (rep = Completed (["Command 'say Hello': Hello";
                              "Command 'save-all': 指令已成功执行，无返回内容"]
                             ++ "Command 'ping': 指令已成功执行，无返回内容" :: after)
            \/ exists failing detail,
                 rep = Stopped failing detail
                         (["Command 'say Hello': Hello";
                           "Command 'save-all': 指令已成功执行，无返回内容"]
                          ++ "Command 'ping': 指令已成功执行，无返回内容" :: after))).
Proof.
  split.
  - apply (blank_success_is_reported_as_no_output (S := services)
             "minecraft-myserver" ["say Hello"] "save-all" ["ping"] false
             start "myserver" [inr (Some "Hello")] ["say Hello"] (Some "  ")
             ["say Hello"; "save-all"]).
    + reflexivity.
    + repeat constructor.
    + reflexivity.
    + reflexivity.
    + right. repeat constructor.
    + reflexivity.
    + right. exists "  ". split; reflexivity.
  - apply (blank_success_is_reported_as_no_output (S := services)
             "minecraft-myserver" ["say Hello"; "save-all"] "ping" [] false
             start "myserver" [inr (Some "Hello"); inr (Some "  ")]
             ["say Hello"; "save-all"] None
             ["say Hello"; "save-all"; "ping"]).
    + reflexivity.
    + repeat constructor.
    + reflexivity.
    + reflexivity.
    + right. repeat constructor.
    + reflexivity.
    + left. reflexivity.
Defined.

Lemma empty_result_iff_no_object_witness :
  fst (_parse_and_validate_components "[1, 2]" start)
  = Raised (ValueError "没有可发送的有效富文本段。")
  /\ exists w',
       _parse_and_validate_components two_segments start
       = (Returned [Component.mk (Some "Hi ") (Some gold) None None None None None;
                    Component.mk (Some "there") None (Some true) None None None None],
          w')
       /\ skipped (trace w') = [JNum "7"].
Proof.
  split.
  - apply (proj1 (empty_result_iff_no_object (S := services)
                    "[1, 2]" [JNum "1"; JNum "2"] start eq_refl)).
    repeat constructor.
  - destruct (proj2 (empty_result_iff_no_object (S := services)
                       two_segments _ start eq_refl)) as (w' & E & Hs).
    + repeat constructor; try discriminate; intros _; vm_compute; tauto.
    + exists w'. split; [exact E | exact Hs].
Defined.

Lemma plain_text_is_concatenation_witness :
  exists components w',
    _parse_and_validate_components greeting start = (Returned components, w')
    /\ map Component.text components = [Some "Hi "; Some ""; Some "there"]
    /\ plain_text_content components = "Hi there".
Proof.
  destruct (plain_text_is_concatenation (S := services) greeting
              [ JObj {[ "text" := JStr "Hi " ]};
                JObj {[ "italic" := JBool false ]};
                JObj {[ "text" := JStr "there" ]} ] start)
    as (components & w' & E & _ & Htexts & Hplain).
  - reflexivity.
  - repeat constructor; vm_compute; tauto.
  - discriminate.
  - exists components, w'. split; [exact E|]. split; [exact Htexts | exact Hplain].
Defined.

Lemma message_id_rule_witness :
  PlatformMessage.message_id (snd (handle_message chat))
  = "mc_survival_eb6b06214c_1700000000".
Proof.
  pose proof (message_id_rule chat) as Hrule.
  unfold handle_message in Hrule. cbv zeta in Hrule.
  destruct Hrule as (_ & Hsynth & _).
  etransitivity.
  - apply Hsynth. right. exists "  ". split; reflexivity.
  - vm_compute. reflexivity.
Defined.

Lemma connection_lookup_precedes_parsing_witness :
  send_rich_text "minecraft-other" "not json" start
  = (Raised (ConnectionError "未能找到或连接到 Minecraft 服务器: minecraft-other"), start)
  /\ send_rich_text "minecraft-other" "[1, 2]" start
     = (Raised (ConnectionError "未能找到或连接到 Minecraft 服务器: minecraft-other"), start).
Proof.
  split.
  - apply (proj1 (connection_lookup_precedes_parsing (S := services)
                    "minecraft-other" "not json" start)); reflexivity.
  - apply (proj1 (connection_lookup_precedes_parsing (S := services)
                    "minecraft-other" "[1, 2]" start)); reflexivity.
Defined.

End Instances.

Section MoreInstances.
Import Demo.


Lemma invalid_batch_sends_nothing_witness :
  execute_rcon_commands "minecraft-myserver" ["say Hello"; "  "] true start
  = (Raised (ValueError "RCON 命令列表无效，必须是非空字符串的列表。"), start).
Proof.
  apply (proj1 (proj2 (invalid_batch_sends_nothing (S := services)
                         "minecraft-myserver" ["say Hello"; "  "] true start))).
  - reflexivity.
  - right. left. reflexivity.
Defined.

Lemma continued_batches_compose_witness :
  fst (execute_rcon_commands "minecraft-myserver"
         (["say Hello"; "stop"] ++ ["say World"]) true start)
  = Returned (("Command 'say Hello': Hello" +:+ PyStr.nl
               +:+ "Command 'stop': Error - Connection reset by peer")
              +:+ PyStr.nl +:+ "Command 'say World': World").
Proof.
  rewrite (continued_batches_compose (S := services)
             "minecraft-myserver" ["say Hello"; "stop"] ["say World"] start
             "myserver"
             ("Command 'say Hello': Hello" +:+ PyStr.nl
              +:+ "Command 'stop': Error - Connection reset by peer")
             "Command 'say World': World"
             (snd (execute_rcon_commands "minecraft-myserver"
                     ["say Hello"; "stop"] true start))
             (snd (execute_rcon_commands "minecraft-myserver" ["say World"] true
                     (snd (execute_rcon_commands "minecraft-myserver"
                             ["say Hello"; "stop"] true start))))).
  - reflexivity.
  - reflexivity.
  - repeat constructor.
  - discriminate.
  - repeat constructor.
  - discriminate.
  - reflexivity.
  - reflexivity.
  - reflexivity.
  - reflexivity.
Defined.

Lemma every_round_trip_is_logged_witness :
  exists attempted rs,
    serve "myserver" attempted (ext start)
    = (rs, ext (snd (execute_rcon_commands "minecraft-myserver"
                       ["say Hello"; "invalid_command"; "say World"] false start)))
    /\ trace (snd (execute_rcon_commands "minecraft-myserver"
                     ["say Hello"; "invalid_command"; "say World"] false start))
       = trace start ++ batch_effects "minecraft-myserver" attempted rs
    /\ attempted <> []
    /\ attempted `prefix_of` ["say Hello"; "invalid_command"; "say World"]
    /\ (false = true -> attempted = ["say Hello"; "invalid_command"; "say World"])
    /\ length (logged (batch_effects "minecraft-myserver" attempted rs))
       = length attempted.
Proof.
  apply (every_round_trip_is_logged (S := services) "minecraft-myserver"
           ["say Hello"; "invalid_command"; "say World"] false start "myserver"
           (fst (execute_rcon_commands "minecraft-myserver"
                   ["say Hello"; "invalid_command"; "say World"] false start))).
  - reflexivity.
  - repeat constructor.
  - discriminate.
  - reflexivity.
  - reflexivity.
Defined.

Lemma continued_report_has_a_line_per_command_witness :
  exists result w',
    execute_rcon_commands "minecraft-myserver"
      ["say Hello"; "invalid_command"; "say World"] true start
    = (Returned result, w')
    /\ line_feeds result + 1 = 3.
Proof.
  apply (continued_report_has_a_line_per_command (S := services)
           "minecraft-myserver" ["say Hello"; "invalid_command"; "say World"]
           start "myserver"
           [inr (Some "Hello");
            inr (Some "Unknown or incomplete command, see below for error");
            inr (Some "World")]
           ["say Hello"; "invalid_command"; "say World"]).
  - reflexivity.
  - repeat constructor.
  - discriminate.
  - reflexivity.
  - reflexivity.
  - repeat constructor.
  - repeat constructor.
Defined.

Lemma known_prefix_is_semantic_error_witness :
  classify (Some "Player not found: Alex  ") = SemanticError.
Proof.
  apply (known_prefix_is_semantic_error "Player not found: Alex  " "Player not found").
  - unfold RCON_ERROR_PREFIXES. repeat (first [left | right]).
  - reflexivity.
Defined.
End MoreInstances.

Section RichInstances.
Import Demo.

Lemma history_is_pushed_before_the_message_is_sent_witness :
  exists tr,
    trace (snd (send_rich_text "minecraft-myserver" two_segments start))
    = trace start ++ tr
    /\ ((deliveries tr = []
         /\ exists e, fst (send_rich_text "minecraft-myserver" two_segments start)
                      = Raised e)
        \/ (exists components,
              components <> []
              /\ deliveries tr
                 = [PushBotMessage "minecraft-myserver"
                      (plain_text_content components)]
              /\ exists e,
                   fst (send_rich_text "minecraft-myserver" two_segments start)
                   = Raised e)
        \/ (exists components preset_name,
              components <> []
              /\ deliveries tr
                 = [PushBotMessage "minecraft-myserver"
                      (plain_text_content components);
                    SendMsg (MessageSegment.text ""
                               (label preset_name :: components))])).
Proof.
  apply (history_is_pushed_before_the_message_is_sent (S := services)
           "minecraft-myserver" two_segments start).
  reflexivity.
Defined.


Lemma unusable_document_is_rejected_witness :
  fst (send_rich_text "minecraft-myserver" "not json" start)
  = Raised (ValueError ("富文本 JSON 格式错误: "
                        +:+ "Expecting value: line 1 column 1 (char 0)")).
Proof.
  rewrite (proj1 (unusable_document_is_rejected (S := services)
                    "minecraft-myserver" "not json" start "myserver"
                    eq_refl eq_refl eq_refl)
             "Expecting value: line 1 column 1 (char 0)" eq_refl).
  reflexivity.
Defined.

Lemma unknown_color_is_dropped_with_a_warning_witness :
  exists component,
    _llm_segment_dict_to_component
      {[ "text" := JStr "x"; "color" := JStr "ultraviolet" ]} start
    = (Returned component,
       mkWorld (ext start)
               (trace start ++ [Log (warn_invalid_color (JStr "ultraviolet"))]))
    /\ Component.text component = Some "x"
    /\ Component.color component = None.
Proof.
  destruct (unknown_color_is_dropped_with_a_warning (S := services)
              {[ "text" := JStr "x"; "color" := JStr "ultraviolet" ]} start)
    as (component & E & Htext & Hcolor & _).
  - vm_compute. tauto.
  - exists component. split; [exact E|]. split; [exact Htext | exact Hcolor].
Defined.

Lemma null_flag_is_absent_flag_witness :
  _llm_segment_dict_to_component
    (<["bold" := JNull]> {[ "text" := JStr "x" ]}) start
  = _llm_segment_dict_to_component (delete "bold" {[ "text" := JStr "x" ]}) start.
Proof.
  apply (null_flag_is_absent_flag (S := services)).
  unfold style_attrs. apply elem_of_cons. left. reflexivity.
Defined.

Lemma send_rich_text_delivers_witness :
  exists tr,
    send_rich_text "minecraft-myserver" greeting start
    = (Returned tt,
       mkWorld []
         (trace start ++ tr
          ++ [PushBotMessage "minecraft-myserver" "Hi there";
              SendMsg (MessageSegment.text ""
                         [label "Nekro";
                          Component.mk (Some "Hi ") None None None None None None;
                          Component.mk (Some "") None None (Some false) None None None;
                          Component.mk (Some "there") None None None None None None]);
              Log (info_rich_text_sent "minecraft-myserver")])).
Proof.
  destruct (send_rich_text_delivers (S := services) "minecraft-myserver" greeting
              start "myserver"
              [ JObj {[ "text" := JStr "Hi " ]};
                JObj {[ "italic" := JBool false ]};
                JObj {[ "text" := JStr "there" ]} ]
              "minecraft-myserver" [] "Nekro" [] [] []) as [tr E].
  - reflexivity.
  - reflexivity.
  - reflexivity.
  - reflexivity.
  - repeat constructor; vm_compute; tauto.
  - discriminate.
  - reflexivity.
  - reflexivity.
  - reflexivity.
  - reflexivity.
  - exists tr. rewrite E. vm_compute. reflexivity.
Defined.

Lemma synthesized_ids_tell_events_apart_witness :
  MessageEvent.server_name chat = MessageEvent.server_name chat_again
  /\ PlatformUser.user_id (snd (fst (handle_message chat)))
     = PlatformUser.user_id (snd (fst (handle_message chat_again)))
  /\ MessageEvent.timestamp chat = MessageEvent.timestamp chat_again.
Proof.
  apply (synthesized_ids_tell_events_apart chat chat_again).
  - reflexivity.
  - exact I.
  - vm_compute. reflexivity.
Defined.
End RichInstances.
